(** * NYC Yellow Taxi dashboard ([app.py]): pipeline, filter and aggregates

    A shallow embedding of the data path of [app.py]:
    [download_file], the lazy cleaning plan of [load_data], the sidebar's
    [payment_map] / [selected_ids], the Polars filter [filtered_polars] and
    the pandas aggregates [top_zones], [avg_fare_hour], [payment_breakdown]
    and [heatmap_data].

    Conventions.
    - A data frame is the list of its rows, in frame order.  Every column
      is nullable, as in Polars and pandas: a cell is an [option].
    - Float columns are read as rationals ([Q]); a timestamp is the number
      of microseconds since the epoch ([Z]); a date is a number of days
      since the epoch ([Z]).  The difference of two timestamps is a signed
      64-bit count of microseconds and wraps around.
    - A file is its bytes; the parquet and CSV readers are functions of
      the bytes that give the rows or raise.
    - A Polars boolean expression evaluates to [option bool]; [None] is
      the null of three-valued logic and [DataFrame.filter] keeps a row
      only when the predicate is [Some true]. *)

From Stdlib Require Import ZArith QArith List Lia.
From stdpp Require Import base option list strings gmap sorting.

Local Open Scope Z_scope.

(** ** Columns and rows *)

(** The columns of the parquet file that the plan reads. *)
Record RawTrip := mkRawTrip {
  raw_pickup : option Z;          (* tpep_pickup_datetime  *)
  raw_dropoff : option Z;         (* tpep_dropoff_datetime *)
  raw_PULocationID : option Z;
  raw_trip_distance : option Q;
  raw_fare_amount : option Q;
  raw_total_amount : option Q;
  raw_payment_type : option Z
}.

(** A float that a Polars division can produce: the plan divides a
    positive distance by a duration that may be zero. *)
Inductive float_val :=
  | Finite (q : Q)
  | Infinite.

(** A row of the lazy frame after [with_columns]: the raw columns plus
    the four derived ones. *)
Record LazyTrip := mkLazyTrip {
  lz_raw : RawTrip;
  lz_trip_duration_minutes : option Z;
  lz_trip_speed_mph : option float_val;
  lz_pickup_hour : option Z;
  lz_pickup_day_of_week : option string
}.

(** A row of the materialised table [df]: the nine selected columns. *)
Record Trip := mkTrip {
  tpep_pickup_datetime : option Z;
  fare_amount : option Q;
  total_amount : option Q;
  PULocationID : option Z;
  trip_distance : option Q;
  trip_duration_minutes : option Z;
  pickup_hour : option Z;
  pickup_day_of_week : option string;
  payment_type : option Z
}.

(** A row of [taxi_zone_lookup.csv]. *)
Record ZoneRow := mkZoneRow {
  LocationID : Z;
  Borough : string;
  Zone : string
}.

(** ** Polars expressions *)

Module Expr.

(** [a & b] on nullable booleans (Kleene conjunction). *)
Definition and_ (a b : option bool) : option bool :=
  match a, b with
  | Some false, _ => Some false
  | _, Some false => Some false
  | Some true, Some true => Some true
  | _, _ => None
  end.

Definition q_gt (x : option Q) (c : Q) : option bool :=
  (fun v => negb (Qle_bool v c)) <$> x.
Definition q_le (x : option Q) (c : Q) : option bool :=
  (fun v => Qle_bool v c) <$> x.
Definition z_ge (x y : option Z) : option bool :=
  match x, y with
  | Some a, Some b => Some (b <=? a)
  | _, _ => None
  end.
Definition z_le (x y : option Z) : option bool :=
  match x, y with
  | Some a, Some b => Some (a <=? b)
  | _, _ => None
  end.
Definition is_in (x : option Z) (l : list Z) : option bool :=
  (fun v => existsb (Z.eqb v) l) <$> x.

(** What [filter] does with the value of its predicate on a row. *)
Definition holds (p : option bool) : bool :=
  match p with
  | Some true => true
  | _ => false
  end.

End Expr.

Infix "&&&" := Expr.and_ (at level 40, left associativity).

(** ** Timestamps *)

Definition us_per_minute : Z := 60000000.
Definition us_per_hour : Z := 3600000000.
Definition us_per_day : Z := 86400000000.

(** [dt.date()]: days since 1970-01-01. *)
Definition dt_date (t : Z) : Z := t / us_per_day.

(** [dt.hour()]. *)
Definition dt_hour (t : Z) : Z := (t / us_per_hour) mod 24.

(** [dt.total_minutes()] of a duration: whole minutes, truncated. *)
Definition total_minutes (d : Z) : Z := Z.quot d us_per_minute.

(** A timestamp and a duration are signed 64-bit counts of microseconds;
    the subtraction of two of them wraps around. *)
Definition i64_min : Z := - 2 ^ 63.
Definition i64_max : Z := 2 ^ 63 - 1.
Definition wrap_i64 (z : Z) : Z := (z + 2 ^ 63) mod 2 ^ 64 - 2 ^ 63.

Definition day_order : list string :=
  ["Monday"; "Tuesday"; "Wednesday"; "Thursday"; "Friday"; "Saturday"; "Sunday"]%string.

(** [dt.strftime("%A")]: 1970-01-01 was a Thursday. *)
Definition strftime_A (t : Z) : string :=
  nth (Z.to_nat ((dt_date t + 3) mod 7)) day_order ""%string.

(** ** [load_data]: the lazy plan *)

Definition has_required (r : RawTrip) : bool :=
  match raw_pickup r, raw_dropoff r, raw_PULocationID r,
        raw_trip_distance r, raw_fare_amount r with
  | Some _, Some _, Some _, Some _, Some _ => true
  | _, _, _, _, _ => false
  end.

(** [lazy_df.drop_nulls([...])] *)
Definition drop_nulls (rows : list RawTrip) : list RawTrip :=
  List.filter has_required rows.

Definition valid_trip (r : RawTrip) : option bool :=
  Expr.q_gt (raw_trip_distance r) 0 &&&
  Expr.q_le (raw_trip_distance r) 100 &&&
  Expr.q_gt (raw_fare_amount r) 0 &&&
  Expr.q_le (raw_fare_amount r) 500 &&&
  Expr.z_ge (raw_dropoff r) (raw_pickup r).

(** [lazy_df.filter(...)] *)
Definition filter_valid (rows : list RawTrip) : list RawTrip :=
  List.filter (fun r => Expr.holds (valid_trip r)) rows.

(** [pl.col("tpep_dropoff_datetime") - pl.col("tpep_pickup_datetime")] *)
Definition duration_us (r : RawTrip) : option Z :=
  match raw_dropoff r, raw_pickup r with
  | Some d, Some p => Some (wrap_i64 (d - p))
  | _, _ => None
  end.

(** [trip_distance / (total_minutes / 60)] in floats. *)
Definition speed_mph (dist : Q) (minutes : Z) : float_val :=
  if minutes =? 0 then Infinite
  else Finite (dist / (inject_Z minutes / 60))%Q.

Definition derive (r : RawTrip) : LazyTrip :=
  {| lz_raw := r;
     lz_trip_duration_minutes := total_minutes <$> duration_us r;
     lz_trip_speed_mph :=
       match raw_trip_distance r, duration_us r with
       | Some dist, Some d => Some (speed_mph dist (total_minutes d))
       | _, _ => None
       end;
     lz_pickup_hour := dt_hour <$> raw_pickup r;
     lz_pickup_day_of_week := strftime_A <$> raw_pickup r |}.

(** [lazy_df.with_columns([...])] *)
Definition with_columns (rows : list RawTrip) : list LazyTrip := derive <$> rows.

Definition select_cols (l : LazyTrip) : Trip :=
  {| tpep_pickup_datetime := raw_pickup (lz_raw l);
     fare_amount := raw_fare_amount (lz_raw l);
     total_amount := raw_total_amount (lz_raw l);
     PULocationID := raw_PULocationID (lz_raw l);
     trip_distance := raw_trip_distance (lz_raw l);
     trip_duration_minutes := lz_trip_duration_minutes l;
     pickup_hour := lz_pickup_hour l;
     pickup_day_of_week := lz_pickup_day_of_week l;
     payment_type := raw_payment_type (lz_raw l) |}.

(** [lazy_df.select(cols).collect()] on the rows of the scanned file. *)
Definition collect_trips (scan : list RawTrip) : list Trip :=
  select_cols <$> with_columns (filter_valid (drop_nulls scan)).

(** ** Sidebar: payment labels and the selected ids *)

(** [payment_map], in the insertion order of the dict literal. *)
Definition payment_map : list (Z * string) :=
  [(1, "Credit Card"); (2, "Cash"); (0, "Void/Unknown");
   (4, "Dispute"); (3, "No Charge")]%string.

(** [dict.get(k)] *)
Fixpoint dict_get (d : list (Z * string)) (k : Z) : option string :=
  match d with
  | [] => None
  | (k', v) :: d' => if k =? k' then Some v else dict_get d' k
  end.

(** [[k for k, v in payment_map.items() if v in selected_payments]] *)
Definition selected_ids (selected_payments : list string) : list Z :=
  fst <$> List.filter (fun kv => bool_decide (snd kv ∈ selected_payments)) payment_map.

(** ** [filtered_polars] *)

Definition filter_pred (d0 d1 h0 h1 : Z) (ids : list Z) (r : Trip) : option bool :=
  Expr.z_ge (dt_date <$> tpep_pickup_datetime r) (Some d0) &&&
  Expr.z_le (dt_date <$> tpep_pickup_datetime r) (Some d1) &&&
  Expr.z_ge (pickup_hour r) (Some h0) &&&
  Expr.z_le (pickup_hour r) (Some h1) &&&
  Expr.is_in (payment_type r) ids &&&
  Expr.q_gt (trip_distance r) 0 &&&
  Expr.q_le (trip_distance r) 100.

(** [df.filter(...)]; [date_range] is the tuple the date widget returns
    and indexing it past its length raises ([None]). *)
Definition filtered_polars (df : list Trip) (date_range : list Z)
    (hour_range : Z * Z) (ids : list Z) : option (list Trip) :=
  match date_range with
  | d0 :: d1 :: _ =>
      Some (List.filter
              (fun r => Expr.holds (filter_pred d0 d1 (fst hour_range) (snd hour_range) ids r))
              df)
  | _ => None
  end.

(** ** pandas: group-by, means and the join *)

Definition string_le (a b : string) : Prop := String.leb a b = true.

#[global] Instance string_le_dec a b : Decision (string_le a b).
Proof. unfold string_le. apply _. Defined.

(** Order of a two-column group key: first column, then second. *)
Definition day_hour_le (a b : string * Z) : Prop :=
  a.1 ≠ b.1 ∧ string_le a.1 b.1 ∨ a.1 = b.1 ∧ a.2 ≤ b.2.

#[global] Instance day_hour_le_dec a b : Decision (day_hour_le a b).
Proof. unfold day_hour_le. apply _. Defined.

Section groupby.
Context {R K : Type} `{EqDecision K}.
Variable le : K → K → Prop.
Context `{∀ x y, Decision (le x y)}.
Variable key : R → option K.

(** The group keys of [groupby(key)]: the distinct non-null keys,
    ascending ([sort=True], [dropna=True]). *)
Definition group_keys (rows : list R) : list K :=
  merge_sort le (remove_dups (omap key rows)).

(** The rows of one group, in frame order. *)
Definition group_rows (k : K) (rows : list R) : list R :=
  List.filter (fun r => bool_decide (key r = Some k)) rows.

(** [groupby(key).size().reset_index(name=...)] *)
Definition groupby_size (rows : list R) : list (K * nat) :=
  (fun k => (k, length (group_rows k rows))) <$> group_keys rows.
End groupby.

Definition Qsum (xs : list Q) : Q := foldr Qplus 0%Q xs.

(** [Series.mean()]: nulls are skipped; the mean of no value is NaN,
    written [None]. *)
Definition series_mean (xs : list (option Q)) : option Q :=
  match omap id xs with
  | [] => None
  | v :: vs => Some (Qsum (v :: vs) / inject_Z (Z.of_nat (length (v :: vs))))%Q
  end.

(** [Series.sum()]: nulls are skipped. *)
Definition series_sum (xs : list (option Q)) : Q := Qsum (omap id xs).

(** [left.merge(right, left_on="PULocationID", right_on="LocationID")]:
    inner join, left order kept. *)
Definition merge_zones (left : list Trip) (right : list ZoneRow) : list (Trip * ZoneRow) :=
  r ← left;
  (fun z => (r, z)) <$>
    List.filter (fun z => bool_decide (PULocationID r = Some (LocationID z))) right.

(** ** Key metrics *)

Record Metrics := mkMetrics {
  total_trips : nat;
  average_fare : option Q;
  total_revenue : Q;
  avg_distance : option Q;
  avg_duration : option Q
}.

(** The block under [if not filtered_df.empty]; [None] when it is skipped. *)
Definition key_metrics (filtered_df : list Trip) : option Metrics :=
  match filtered_df with
  | [] => None
  | _ :: _ =>
      Some {| total_trips := length filtered_df;
              average_fare := series_mean (fare_amount <$> filtered_df);
              total_revenue := series_sum (total_amount <$> filtered_df);
              avg_distance := series_mean (trip_distance <$> filtered_df);
              avg_duration :=
                series_mean ((fun r => inject_Z <$> trip_duration_minutes r) <$> filtered_df) |}
  end.

(** ** The aggregates *)

(** Descending by the count column. *)
Definition count_desc {K} (a b : K * nat) : Prop := (b.2 ≤ a.2)%nat.

#[global] Instance count_desc_dec {K} (a b : K * nat) : Decision (count_desc a b).
Proof. unfold count_desc. apply _. Defined.

(** What pandas promises of [sort_values(col, ascending=False)] with the
    default [kind="quicksort"]: the rows, rearranged, descending by the
    column.  The sort is not stable, so the order of rows with equal
    counts is the routine's own. *)
Record sorts_descending (sort_values : ∀ K, list (K * nat) → list (K * nat)) : Prop := {
  sort_values_perm : ∀ K (l : list (K * nat)), sort_values K l ≡ₚ l;
  sort_values_sorted : ∀ K (l : list (K * nat)), Sorted count_desc (sort_values K l)
}.

(** Two routines that meet it: one keeps rows of equal count in their
    incoming order, the other reverses them. *)
Fixpoint insert_desc {K} (before_equal : bool) (x : K * nat) (l : list (K * nat))
  : list (K * nat) :=
  match l with
  | [] => [x]
  | y :: l' =>
      if (if before_equal then y.2 <=? x.2 else y.2 <? x.2)%nat
      then x :: y :: l'
      else y :: insert_desc before_equal x l'
  end.

Definition stable_sort_desc K (l : list (K * nat)) : list (K * nat) :=
  foldr (insert_desc true) [] l.

Definition reversing_sort_desc K (l : list (K * nat)) : list (K * nat) :=
  foldr (insert_desc false) [] l.

(** The group key of [groupby("Zone")] on the joined frame. *)
Definition zone_key (p : Trip * ZoneRow) : option string := Some (Zone p.2).

Section aggregates.
Variable sort_values : ∀ K, list (K * nat) → list (K * nat).

(** [top_zones] *)
Definition top_zones (filtered_df : list Trip) (zones : list ZoneRow) : list (string * nat) :=
  take 10
    (sort_values _
       (groupby_size string_le zone_key (merge_zones filtered_df zones))).

(** [Series.value_counts(normalize=True).reset_index()]: the distinct
    non-null values in order of first appearance, counted, sorted by
    count descending, then divided by the number of non-null values. *)
Definition value_counts_normalized (col : list (option Z)) : list (Z * Q) :=
  let vals := omap id col in
  let counts := (fun v => (v, length (List.filter (Z.eqb v) vals))) <$> remove_dups vals in
  (fun vc => (vc.1, inject_Z (Z.of_nat vc.2) / inject_Z (Z.of_nat (length vals)))%Q)
    <$> sort_values _ counts.
End aggregates.

(** [avg_fare_hour] *)
Definition avg_fare_hour (filtered_df : list Trip) : list (Z * option Q) :=
  (fun h => (h, series_mean (fare_amount <$> group_rows pickup_hour h filtered_df)))
    <$> group_keys Z.le pickup_hour filtered_df.

(** A row of [payment_breakdown]. *)
Record PaymentRow := mkPaymentRow {
  pb_payment_type : Z;
  pb_proportion : Q;
  pb_payment_type_labelled : option string     (* [None] is NaN *)
}.

(** [payment_breakdown['payment_type'].map(payment_map)]: a key that is
    not in the dict maps to NaN. *)
Definition map_labels (rows : list (Z * Q)) : list PaymentRow :=
  (fun vp => mkPaymentRow vp.1 vp.2 (dict_get payment_map vp.1)) <$> rows.

(** [payment_breakdown] *)
Definition payment_breakdown (sort_values : ∀ K, list (K * nat) → list (K * nat))
    (filtered_df : list Trip) : list PaymentRow :=
  map_labels (value_counts_normalized sort_values (payment_type <$> filtered_df)).

(** The sidebar's [payment_options] before sorting:
    [[payment_map.get(i, f"ID {i}") for i in payment_ids]]. *)
Definition payment_option (pretty : Z → string) (i : Z) : string :=
  default ("ID " +:+ pretty i) (dict_get payment_map i).

(** A frame with a string index, integer column labels and a grid. *)
Record Grid (A : Type) := mkGrid {
  grid_index : list string;
  grid_columns : list Z;
  grid_values : list (list A)
}.
Arguments mkGrid {A}.
Arguments grid_index {A}.
Arguments grid_columns {A}.
Arguments grid_values {A}.

Definition day_hour_key (r : Trip) : option (string * Z) :=
  match pickup_day_of_week r, pickup_hour r with
  | Some d, Some h => Some (d, h)
  | _, _ => None
  end.

(** [.pivot(index=..., columns=..., values="trip_count")]: index and
    columns are the distinct values, ascending; a cell with no row is NaN. *)
Definition pivot (long : list ((string * Z) * nat)) : Grid (option nat) :=
  let idx := merge_sort string_le (remove_dups ((fun e => e.1.1) <$> long)) in
  let cols := merge_sort Z.le (remove_dups ((fun e => e.1.2) <$> long)) in
  let cells : gmap (string * Z) nat := list_to_map long in
  mkGrid idx cols ((fun d => (fun h => cells !! (d, h)) <$> cols) <$> idx).

(** [.reindex(labels)]: the rows of the labels, in that order; a label
    that is not in the index gets a row of NaN. *)
Definition reindex {A} (labels : list string) (g : Grid (option A)) : Grid (option A) :=
  let rows : gmap string (list (option A)) :=
    list_to_map (zip (grid_index g) (grid_values g)) in
  mkGrid labels (grid_columns g)
    ((fun d => default (replicate (length (grid_columns g)) None) (rows !! d)) <$> labels).

(** [.fillna(0)] *)
Definition fillna (g : Grid (option nat)) : Grid nat :=
  mkGrid (grid_index g) (grid_columns g)
    ((fun row : list (option nat) => default 0%nat <$> row) <$> grid_values g).

(** [heatmap_data] *)
Definition heatmap_data (filtered_df : list Trip) : Grid nat :=
  fillna (reindex day_order (pivot (groupby_size day_hour_le day_hour_key filtered_df))).

(** The column handed to [px.histogram(..., x="trip_distance", nbins=50)];
    the binning itself is the charting library's. *)
Definition histogram_x (filtered_df : list Trip) : list Q :=
  omap trip_distance filtered_df.

(** ** [download_file] and [load_data] *)

(** The body of a streamed response as [iter_content] yields it: chunks,
    then the end of the stream or a broken connection (an exception). *)
Inductive stream :=
  | EndOfStream
  | Chunk (c : list Byte.byte) (rest : stream)
  | ConnectionLost.

Record Response := mkResponse {
  status_code : Z;
  iter_content : stream
}.

(** What [requests.get(url, stream=True)] gives. *)
Inductive reply :=
  | NoConnection
  | Reply (r : Response).

Inductive result (A : Type) :=
  | Returned (a : A)
  | Raised (msg : string).
Arguments Returned {A}.
Arguments Raised {A}.

(** [for chunk in response.iter_content(...): f.write(chunk)]: the bytes
    in the file when the loop stops, and whether it ran to the end. *)
Fixpoint write_chunks (written : list Byte.byte) (s : stream) : list Byte.byte * bool :=
  match s with
  | EndOfStream => (written, true)
  | Chunk c rest => write_chunks (written ++ c) rest
  | ConnectionLost => (written, false)
  end.

(** [download_file(url, destination)] over a file system (path to
    content) and a network. *)
Definition download_file (get : string → reply) (url destination : string)
    (fs : gmap string (list Byte.byte)) : gmap string (list Byte.byte) * result unit :=
  match fs !! destination with
  | Some _ => (fs, Returned ())
  | None =>
      match get url with
      | NoConnection => (fs, Raised "ConnectionError")
      | Reply response =>
          if bool_decide (status_code response ≠ 200)
          then (fs, Raised ("Failed to download " +:+ url))
          else
            let '(content, complete) := write_chunks [] (iter_content response) in
            (<[destination := content]> fs,
             if complete then Returned () else Raised "ChunkedEncodingError")
      end
  end.

Definition trip_url : string :=
  "https://d37ci6vzurychx.cloudfront.net/trip-data/yellow_tripdata_2024-01.parquet".
Definition zone_url : string :=
  "https://d37ci6vzurychx.cloudfront.net/misc/taxi_zone_lookup.csv".
Definition trip_file : string := "data/raw/yellow_tripdata_2024_01.parquet".
Definition zone_file : string := "data/raw/taxi_zone_lookup.csv".

(** Reading a file: the reader decodes its bytes into rows, or raises
    on bytes it cannot decode; a path with no file raises. *)
Definition read_file {A : Type} (reader : list Byte.byte → result A)
    (fs : gmap string (list Byte.byte)) (path : string) : result A :=
  match fs !! path with
  | Some bytes => reader bytes
  | None => Raised "FileNotFoundError"
  end.

(** [load_data()]: both fetches, then the trip file is read and the plan
    collected, then the zone file is read. *)
Definition load_data (get : string → reply)
    (scan_parquet : list Byte.byte → result (list RawTrip))
    (read_csv : list Byte.byte → result (list ZoneRow))
    (fs : gmap string (list Byte.byte))
  : gmap string (list Byte.byte) * result (list Trip * list ZoneRow) :=
  match download_file get trip_url trip_file fs with
  | (fs1, Raised msg) => (fs1, Raised msg)
  | (fs1, Returned _) =>
      match download_file get zone_url zone_file fs1 with
      | (fs2, Raised msg) => (fs2, Raised msg)
      | (fs2, Returned _) =>
          match read_file scan_parquet fs2 trip_file with
          | Raised msg => (fs2, Raised msg)
          | Returned scan =>
              let df := collect_trips scan in
              match read_file read_csv fs2 zone_file with
              | Raised msg => (fs2, Raised msg)
              | Returned zones => (fs2, Returned (df, zones))
              end
          end
      end
  end.

(** ** Sample data *)

Module Sample.

(** 2024-01-01 (a Monday) at 05:00:00. *)
Definition monday_5am : Z := 19723 * us_per_day + 5 * us_per_hour.
(** 2024-01-02 (a Tuesday) at 09:00:00. *)
Definition tuesday_9am : Z := 19724 * us_per_day + 9 * us_per_hour.

Definition raw (pickup dropoff loc : Z) (dist fare : Q) (pay : Z) : RawTrip :=
  mkRawTrip (Some pickup) (Some dropoff) (Some loc) (Some dist) (Some fare)
            (Some (fare + 1)%Q) (Some pay).

Definition scan : list RawTrip :=
  [ raw monday_5am (monday_5am + 15 * us_per_minute) 1 (5 # 2) 12 1;
    raw tuesday_9am (tuesday_9am + 10 * us_per_minute) 2 (3 # 1) 10 2;
    raw tuesday_9am (tuesday_9am - 1) 2 (3 # 1) 10 1;
    raw tuesday_9am (tuesday_9am + 10 * us_per_minute) 2 (0 # 1) 10 1;
    raw tuesday_9am (tuesday_9am + 10 * us_per_minute) 1 (4 # 1) 20 5;
    mkRawTrip (Some tuesday_9am) None (Some 2) (Some (1 # 1)) (Some (7 # 1)) None (Some 1) ].

Definition df : list Trip := Eval vm_compute in collect_trips scan.

Definition zones : list ZoneRow :=
  [ mkZoneRow 1 "EWR" "Newark Airport"; mkZoneRow 2 "Queens" "Jamaica Bay" ].

Definition january : list Z := [19723; 19753].

End Sample.

(** ** Sidebar: the payment options offered *)

(** [payment_ids = df["payment_type"].unique().to_list()]; a null in the
    column is one of the values. *)
Definition payment_ids (df : list Trip) : list (option Z) :=
  remove_dups (payment_type <$> df).

(** [payment_map.get(i, f"ID {i}")]; [fmt] renders [{i}]. *)
Definition payment_label (fmt : option Z → string) (i : option Z) : string :=
  match i ≫= dict_get payment_map with
  | Some label => label
  | None => "ID " +:+ fmt i
  end.

(** [payment_options = sorted([... for i in payment_ids])] *)
Definition payment_options (fmt : option Z → string) (df : list Trip) : list string :=
  merge_sort string_le (payment_label fmt <$> payment_ids df).

(** ** Predicates of the statements and more samples *)

(** The filter's predicate without its two distance conjuncts. *)
Definition filter_pred_no_distance (d0 d1 h0 h1 : Z) (ids : list Z) (r : Trip)
  : option bool :=
  Expr.z_ge (dt_date <$> tpep_pickup_datetime r) (Some d0) &&&
  Expr.z_le (dt_date <$> tpep_pickup_datetime r) (Some d1) &&&
  Expr.z_ge (pickup_hour r) (Some h0) &&&
  Expr.z_le (pickup_hour r) (Some h1) &&&
  Expr.is_in (payment_type r) ids.

(** Sum of all the cells of a grid. *)
Definition grid_total (g : Grid nat) : nat := sum_list_with sum_list (grid_values g).

(** The four predicates of the filter on one row: the row's own cells are
    present, the pickup date and hour lie in the closed ranges, the
    payment code is selected and the distance lies in (0, 100]. *)
Definition meets_criteria (d0 d1 h0 h1 : Z) (ids : list Z) (r : Trip) : Prop :=
  ∃ t h p dist,
    tpep_pickup_datetime r = Some t ∧ pickup_hour r = Some h ∧
    payment_type r = Some p ∧ trip_distance r = Some dist ∧
    (d0 ≤ dt_date t ∧ dt_date t ≤ d1) ∧ (h0 ≤ h ∧ h ≤ h1) ∧ p ∈ ids ∧
    (0 < dist)%Q ∧ (dist <= 100)%Q.

(** A scanned row that passes the cleaning: the five required cells are
    present and within bounds. *)
Definition raw_valid (raw : RawTrip) : Prop :=
  ∃ p d loc dist fare,
    raw_pickup raw = Some p ∧ raw_dropoff raw = Some d ∧
    raw_PULocationID raw = Some loc ∧
    raw_trip_distance raw = Some dist ∧ raw_fare_amount raw = Some fare ∧
    (0 < dist)%Q ∧ (dist <= 100)%Q ∧ (0 < fare)%Q ∧ (fare <= 500)%Q ∧ p ≤ d.

(** The invariant of a row of the materialised table. *)
Definition trip_invariant (r : Trip) : Prop :=
  ∃ p loc dist fare dur h,
    tpep_pickup_datetime r = Some p ∧ PULocationID r = Some loc ∧
    trip_distance r = Some dist ∧ fare_amount r = Some fare ∧
    trip_duration_minutes r = Some dur ∧ pickup_hour r = Some h ∧
    (0 < dist)%Q ∧ (dist <= 100)%Q ∧ (0 < fare)%Q ∧ (fare <= 500)%Q ∧
    0 ≤ h ∧ h ≤ 23.

(** The bytes a stream delivers before it ends or breaks, and whether it
    ends. *)
Fixpoint received (s : stream) : list Byte.byte :=
  match s with
  | Chunk c rest => c ++ received rest
  | _ => []
  end.

Fixpoint complete (s : stream) : bool :=
  match s with
  | EndOfStream => true
  | Chunk _ rest => complete rest
  | ConnectionLost => false
  end.

(** Number of rows of the view on day [d] at hour [h]. *)
Definition trip_count (view : list Trip) (d : string) (h : Z) : nat :=
  length (group_rows day_hour_key (d, h) view).

(** A network that serves both files, and the disk after a load. *)
Module SampleNet.
Definition body : stream :=
  Chunk [Byte.x50; Byte.x41] (Chunk [Byte.x52; Byte.x31] EndOfStream).
Definition get (url : string) : reply :=
  if bool_decide (url = zone_url)
  then Reply (mkResponse 200 (Chunk [Byte.x52; Byte.x31] EndOfStream))
  else Reply (mkResponse 200 body).
(** Sample readers: each decodes the one file served above and raises
    on any other bytes. *)
Definition scan_parquet (bytes : list Byte.byte) : result (list RawTrip) :=
  if bool_decide (Byte.to_N <$> bytes = [80; 65; 82; 49]%N)
  then Returned Sample.scan else Raised "ComputeError".
Definition read_csv (bytes : list Byte.byte) : result (list ZoneRow) :=
  if bool_decide (Byte.to_N <$> bytes = [82; 49]%N)
  then Returned Sample.zones else Raised "ComputeError".
Definition disk : gmap string (list Byte.byte) :=
  <[zone_file := [Byte.x52; Byte.x31]]> (<[trip_file := [Byte.x50; Byte.x41; Byte.x52; Byte.x31]]> ∅).
End SampleNet.

(** Networks that fail. *)
Module BrokenNet.
(** The remote answers 200 and the connection drops after one chunk. *)
Definition response : Response :=
  mkResponse 200 (Chunk [Byte.x50; Byte.x41] ConnectionLost).
Definition get (url : string) : reply := Reply response.
(** The remote answers 404. *)
Definition not_found : Response := mkResponse 404 EndOfStream.
Definition partial : gmap string (list Byte.byte) :=
  <[trip_file := [Byte.x50; Byte.x41]]> ∅.
End BrokenNet.

(** * Properties *)

(** ** Expressions and [filter] *)

Lemma holds_and a b :
  Expr.holds (a &&& b) = true ↔ Expr.holds a = true ∧ Expr.holds b = true.
Proof. destruct a as [[]|], b as [[]|]; simpl; intuition congruence. Qed.

Lemma holds_z_ge x c :
  Expr.holds (Expr.z_ge x (Some c)) = true ↔ ∃ v, x = Some v ∧ c ≤ v.
Proof.
  destruct x as [v|]; simpl.
  - destruct (Z.leb_spec c v); split.
    + intros _. exists v. split; [reflexivity | assumption].
    + reflexivity.
    + discriminate.
    + intros (w & [= <-] & Hw). lia.
  - split; [discriminate | intros (v & [=] & _)].
Qed.

Lemma holds_z_le x c :
  Expr.holds (Expr.z_le x (Some c)) = true ↔ ∃ v, x = Some v ∧ v ≤ c.
Proof.
  destruct x as [v|]; simpl.
  - destruct (Z.leb_spec v c); split.
    + intros _. exists v. split; [reflexivity | assumption].
    + reflexivity.
    + discriminate.
    + intros (w & [= <-] & Hw). lia.
  - split; [discriminate | intros (v & [=] & _)].
Qed.

Lemma holds_q_le x c :
  Expr.holds (Expr.q_le x c) = true ↔ ∃ v, x = Some v ∧ (v <= c)%Q.
Proof.
  destruct x as [v|]; simpl.
  - destruct (Qle_bool v c) eqn:E; split.
    + intros _. exists v. split; [reflexivity | by apply Qle_bool_iff].
    + reflexivity.
    + discriminate.
    + intros (w & [= <-] & Hw). apply Qle_bool_iff in Hw. congruence.
  - split; [discriminate | intros (v & [=] & _)].
Qed.

Lemma holds_q_gt x c :
  Expr.holds (Expr.q_gt x c) = true ↔ ∃ v, x = Some v ∧ (c < v)%Q.
Proof.
  destruct x as [v|]; simpl.
  - destruct (Qle_bool v c) eqn:E; simpl; split.
    + discriminate.
    + intros (w & [= <-] & Hw). apply Qle_bool_iff in E.
      exfalso. by apply (Qlt_not_le c v).
    + intros _. exists v. split; [reflexivity |].
      apply Qnot_le_lt. intros Hle. apply Qle_bool_iff in Hle. congruence.
    + reflexivity.
  - split; [discriminate | intros (v & [=] & _)].
Qed.

Lemma holds_is_in x l :
  Expr.holds (Expr.is_in x l) = true ↔ ∃ v, x = Some v ∧ v ∈ l.
Proof.
  destruct x as [v|]; simpl.
  - destruct (existsb (Z.eqb v) l) eqn:E; split.
    + intros _. exists v. split; [reflexivity |].
      apply existsb_exists in E as (w & Hw & Heq).
      apply Z.eqb_eq in Heq as ->. by apply list_elem_of_In.
    + reflexivity.
    + discriminate.
    + intros (w & [= <-] & Hw). apply list_elem_of_In in Hw.
      assert (existsb (Z.eqb v) l = true) as E'.
      { apply existsb_exists. exists v. split; [assumption | apply Z.eqb_refl]. }
      congruence.
  - split; [discriminate | intros (v & [=] & _)].
Qed.

Lemma filter_sublist {A} (p : A → bool) (l : list A) : sublist (List.filter p l) l.
Proof.
  induction l as [|x l IH]; simpl.
  - constructor.
  - destruct (p x); by constructor.
Qed.

Lemma filter_idem {A} (p : A → bool) (l : list A) :
  List.filter p (List.filter p l) = List.filter p l.
Proof.
  induction l as [|x l IH]; simpl; [reflexivity |].
  destruct (p x) eqn:E; simpl; [rewrite E; f_equal |]; exact IH.
Qed.

Lemma elem_of_filter {A} (p : A → bool) (l : list A) x :
  x ∈ List.filter p l ↔ x ∈ l ∧ p x = true.
Proof. rewrite !list_elem_of_In. apply filter_In. Qed.

(** ** The filter step *)

Lemma filter_pred_spec d0 d1 h0 h1 ids r :
  Expr.holds (filter_pred d0 d1 h0 h1 ids r) = true ↔ meets_criteria d0 d1 h0 h1 ids r.
Proof.
  unfold filter_pred, meets_criteria.
  rewrite !holds_and, !holds_z_ge, !holds_z_le, holds_is_in, holds_q_gt, holds_q_le.
  split.
  - intros ((((((Hd0 & Hd1) & Hh0) & Hh1) & Hp) & Hg) & Hl).
    destruct Hd0 as (dt & Ht & Hd0), Hd1 as (dt' & Ht' & Hd1).
    destruct (tpep_pickup_datetime r) as [t|]; [|discriminate].
    simpl in Ht, Ht'. injection Ht as <-. injection Ht' as <-.
    destruct Hh0 as (h & Hh & Hh0), Hh1 as (h' & Hh' & Hh1).
    rewrite Hh in Hh'. injection Hh' as <-.
    destruct Hp as (p & Hp & Hin).
    destruct Hg as (dist & Hdist & Hg), Hl as (dist' & Hdist' & Hl).
    rewrite Hdist in Hdist'. injection Hdist' as <-.
    exists t, h, p, dist. tauto.
  - intros (t & h & p & dist & Ht & Hh & Hp & Hdist & [Hd0 Hd1] & [Hh0 Hh1] & Hin & Hg & Hl).
    rewrite Ht. simpl. repeat split; eauto.
Qed.

Lemma filtered_view_payment (df : list Trip) d0 d1 h0 h1 (ids : list Z) r :
  r ∈ List.filter (fun r => Expr.holds (filter_pred d0 d1 h0 h1 ids r)) df →
  ∃ p, payment_type r = Some p ∧ p ∈ ids.
Proof.
  intros [_ Hp]%elem_of_filter.
  apply filter_pred_spec in Hp
    as (t & h & p & dist & _ & _ & Hp & _ & _ & _ & Hin & _).
  by exists p.
Qed.

(** C1. For every table, date range [d0, d1], hour range [h0, h1] and
    set of payment ids, the filter returns a view whose rows are rows of
    the table (in table order, none invented), and every row of the view
    meets all the predicates at once: pickup date in [d0, d1], pickup
    hour in [h0, h1], payment type among the ids, and
    0 < trip_distance <= 100. *)
Theorem filtered_polars_sound (df : list Trip) (d0 d1 h0 h1 : Z) (ids : list Z) :
  ∃ view, filtered_polars df [d0; d1] (h0, h1) ids = Some view ∧
          sublist view df ∧
          Forall (fun r => r ∈ df ∧ meets_criteria d0 d1 h0 h1 ids r) view.
Proof.
  eexists. split; [reflexivity |]. simpl. split.
  - apply filter_sublist.
  - apply Forall_forall. intros r Hr.
    apply elem_of_filter in Hr as [Hin Hp].
    split; [assumption | by apply filter_pred_spec].
Qed.

(** The filter also loses nothing: a row of the table that meets the
    predicates is in the view. *)
Lemma filtered_polars_complete (df : list Trip) (d0 d1 h0 h1 : Z) (ids : list Z) view r :
  filtered_polars df [d0; d1] (h0, h1) ids = Some view →
  r ∈ df → meets_criteria d0 d1 h0 h1 ids r → r ∈ view.
Proof.
  intros [= <-] Hin Hm. apply elem_of_filter.
  split; [assumption | by apply filter_pred_spec].
Qed.

(** C9. The filter is a function of the table and the criteria alone:
    two runs on the same table and criteria give the same rows in the
    same order, and filtering the view again with the same criteria
    gives the view back unchanged. *)
Theorem filtered_polars_deterministic (df : list Trip) (date_range : list Z)
    (hour_range : Z * Z) (ids : list Z) (view1 view2 : list Trip) :
  filtered_polars df date_range hour_range ids = Some view1 →
  filtered_polars df date_range hour_range ids = Some view2 →
  view1 = view2 ∧ filtered_polars view1 date_range hour_range ids = Some view1.
Proof.
  intros H1 H2. split; [congruence |].
  unfold filtered_polars in *.
  destruct date_range as [|d0 [|d1 rest]]; try discriminate.
  injection H1 as <-. by rewrite filter_idem.
Qed.

Lemma filtered_polars_deterministic_witness :
  filtered_polars Sample.df Sample.january (0, 23) [1; 2] = Some (take 2 Sample.df) ∧
  filtered_polars (take 2 Sample.df) Sample.january (0, 23) [1; 2] = Some (take 2 Sample.df).
Proof.
  assert (filtered_polars Sample.df Sample.january (0, 23) [1; 2]
          = Some (take 2 Sample.df)) as H by reflexivity.
  split; [exact H |].
  exact (proj2 (filtered_polars_deterministic _ _ _ _ _ _ H H)).
Defined.

(** ** The selected payment ids *)

Lemma payment_map_keys k : k ∈ (fst <$> payment_map) ↔ 0 ≤ k ∧ k ≤ 4.
Proof.
  simpl. rewrite !elem_of_cons, elem_of_nil. lia.
Qed.

Lemma selected_ids_in_map sel k : k ∈ selected_ids sel → k ∈ (fst <$> payment_map).
Proof.
  unfold selected_ids. intros Hk.
  apply list_elem_of_fmap in Hk as (kv & -> & Hkv).
  apply elem_of_filter in Hkv as [Hkv _].
  apply list_elem_of_fmap. by exists kv.
Qed.

(** A code outside 0..4 has no entry in [payment_map]; the sidebar shows
    it under the fallback label. *)
Lemma dict_get_unknown k : ¬ (0 ≤ k ∧ k ≤ 4) → dict_get payment_map k = None.
Proof.
  intros Hk. simpl.
  repeat match goal with
         | |- context [?a =? ?b] => destruct (Z.eqb_spec a b); [lia |]
         end.
  reflexivity.
Qed.

Lemma payment_option_fallback pretty k :
  ¬ (0 ≤ k ∧ k ≤ 4) → payment_option pretty k = "ID " +:+ pretty k.
Proof. intros Hk. unfold payment_option. by rewrite dict_get_unknown. Qed.

(** C10. Whatever labels are selected in the sidebar (the fallback
    labels included), every selected id is one of 0..4, and so every row
    of the filtered view carries a payment type in 0..4: a row with any
    other code is excluded. *)
Theorem selected_ids_known (selected_payments : list string)
    (df : list Trip) (d0 d1 h0 h1 : Z) :
  Forall (fun k => 0 ≤ k ∧ k ≤ 4) (selected_ids selected_payments) ∧
  ∃ view,
    filtered_polars df [d0; d1] (h0, h1) (selected_ids selected_payments) = Some view ∧
    Forall (fun r => ∃ p, payment_type r = Some p ∧ 0 ≤ p ∧ p ≤ 4) view.
Proof.
  split.
  - apply Forall_forall. intros k Hk.
    by apply payment_map_keys, (selected_ids_in_map selected_payments).
  - eexists. split; [reflexivity |]. simpl.
    apply Forall_forall. intros r Hr.
    apply filtered_view_payment in Hr as (p & Hp & Hin).
    exists p. split; [assumption |].
    by apply payment_map_keys, (selected_ids_in_map selected_payments).
Qed.

(** ** The pipeline *)

Lemma dt_hour_range t : 0 ≤ dt_hour t ∧ dt_hour t ≤ 23.
Proof. unfold dt_hour. pose proof (Z.mod_pos_bound (t / us_per_hour) 24). lia. Qed.

Lemma total_minutes_nonneg d : 0 ≤ d → 0 ≤ total_minutes d.
Proof. intros Hd. unfold total_minutes, us_per_minute. apply Z.quot_pos; lia. Qed.

(** A difference that fits 64 bits is kept as it is. *)
Lemma wrap_i64_fits z : i64_min ≤ z ≤ i64_max → wrap_i64 z = z.
Proof.
  unfold i64_min, i64_max, wrap_i64. intros Hz.
  rewrite Z.mod_small by lia. lia.
Qed.

Lemma wrap_i64_range z : i64_min ≤ wrap_i64 z ≤ i64_max.
Proof.
  unfold i64_min, i64_max, wrap_i64.
  pose proof (Z.mod_pos_bound (z + 2 ^ 63) (2 ^ 64)). lia.
Qed.

Lemma valid_trip_spec raw :
  has_required raw = true → Expr.holds (valid_trip raw) = true → raw_valid raw.
Proof.
  unfold has_required, valid_trip, raw_valid. intros Hreq.
  rewrite !holds_and, !holds_q_gt, !holds_q_le.
  destruct (raw_pickup raw) as [p|]; [|discriminate].
  destruct (raw_dropoff raw) as [d|]; [|discriminate].
  destruct (raw_PULocationID raw) as [loc|]; [|discriminate].
  rewrite holds_z_ge.
  intros ((((Hd0 & Hd1) & Hf0) & Hf1) & Hge).
  destruct Hd0 as (dist & Hdist & Hd0), Hd1 as (dist' & Hdist' & Hd1).
  rewrite Hdist in Hdist'. injection Hdist' as <-.
  destruct Hf0 as (fare & Hfare & Hf0), Hf1 as (fare' & Hfare' & Hf1).
  rewrite Hfare in Hfare'. injection Hfare' as <-.
  destruct Hge as (d' & [= <-] & Hge).
  exists p, d, loc, dist, fare. tauto.
Qed.

Lemma select_derive_invariant raw : raw_valid raw → trip_invariant (select_cols (derive raw)).
Proof.
  intros (p & d & loc & dist & fare & Hp & Hd & Hloc & Hdist & Hfare & Hb).
  exists p, loc, dist, fare, (total_minutes (wrap_i64 (d - p))), (dt_hour p).
  unfold select_cols, derive, duration_us. simpl. rewrite Hp, Hd. simpl.
  pose proof (dt_hour_range p).
  repeat split; try tauto; lia.
Qed.

Lemma collect_trips_invariants (scan : list RawTrip) :
  Forall (fun r => trip_invariant r ∧
                   ∃ raw, raw ∈ scan ∧ raw_valid raw ∧ r = select_cols (derive raw))
         (collect_trips scan).
Proof.
  apply Forall_forall. intros r Hr.
  unfold collect_trips, with_columns, filter_valid, drop_nulls in Hr.
  apply list_elem_of_fmap in Hr as (l & -> & Hl).
  apply list_elem_of_fmap in Hl as (raw & -> & Hraw).
  apply elem_of_filter in Hraw as [Hraw Hvalid].
  apply elem_of_filter in Hraw as [Hraw Hreq].
  pose proof (valid_trip_spec raw Hreq Hvalid) as Hv.
  split; [by apply select_derive_invariant | by exists raw].
Qed.

(** A load that returns has read both files: the trip file is on disk,
    the reader decoded it, and the table is the collected plan. *)
Lemma load_data_returned get scan_parquet read_csv fs fs' df zones :
  load_data get scan_parquet read_csv fs = (fs', Returned (df, zones)) →
  ∃ bytes scan,
    fs' !! trip_file = Some bytes ∧ scan_parquet bytes = Returned scan ∧
    df = collect_trips scan ∧ read_file read_csv fs' zone_file = Returned zones.
Proof.
  unfold load_data. intros Hload.
  destruct (download_file get trip_url trip_file fs) as [fs1 [[]|msg]]; [|discriminate].
  destruct (download_file get zone_url zone_file fs1) as [fs2 [[]|msg]]; [|discriminate].
  destruct (read_file scan_parquet fs2 trip_file) as [scan|msg] eqn:Escan;
    [|discriminate].
  destruct (read_file read_csv fs2 zone_file) as [zs|msg] eqn:Ezones; [|discriminate].
  injection Hload as <- <- <-.
  unfold read_file in Escan.
  destruct (fs2 !! trip_file) as [bytes|] eqn:Ebytes; [|discriminate].
  by exists bytes, scan.
Qed.

(** C2. When the load returns a table, the trip file is on disk, the
    reader decoded it, and every row of the table comes unchanged from a
    scanned row whose pickup time, dropoff time, pickup location, distance
    and fare are present with 0 < distance <= 100, 0 < fare <= 500 and
    dropoff >= pickup; the row itself has its pickup time, pickup
    location, distance, fare, duration and pickup hour present, the
    distance and the fare within the same bounds and the pickup hour in
    0..23. *)
Theorem load_data_invariants (get : string → reply)
    (scan_parquet : list Byte.byte → result (list RawTrip))
    (read_csv : list Byte.byte → result (list ZoneRow))
    (fs fs' : gmap string (list Byte.byte)) (df : list Trip) (zones : list ZoneRow) :
  load_data get scan_parquet read_csv fs = (fs', Returned (df, zones)) →
  ∃ bytes scan,
    fs' !! trip_file = Some bytes ∧ scan_parquet bytes = Returned scan ∧
    Forall (fun r => trip_invariant r ∧
                     ∃ raw, raw ∈ scan ∧ raw_valid raw ∧
                            r = select_cols (derive raw)) df.
Proof.
  intros Hload.
  apply load_data_returned in Hload as (bytes & scan & Hbytes & Hscan & -> & _).
  exists bytes, scan. split; [assumption |]. split; [assumption |].
  apply collect_trips_invariants.
Qed.

Lemma load_data_invariants_witness :
  ∃ bytes scan,
    SampleNet.disk !! trip_file = Some bytes ∧
    SampleNet.scan_parquet bytes = Returned scan ∧
    Forall (fun r => trip_invariant r ∧
                     ∃ raw, raw ∈ scan ∧ raw_valid raw ∧
                            r = select_cols (derive raw)) Sample.df.
Proof.
  apply (load_data_invariants SampleNet.get SampleNet.scan_parquet SampleNet.read_csv
           ∅ SampleNet.disk Sample.df Sample.zones).
  vm_compute. reflexivity.
Defined.

(** ** The fetcher *)

Lemma write_chunks_spec written s :
  write_chunks written s = (written ++ received s, complete s).
Proof.
  revert written. induction s as [|c rest IH|]; intros written; simpl.
  - by rewrite app_nil_r.
  - rewrite IH. by rewrite <- app_assoc.
  - by rewrite app_nil_r.
Qed.

(** A file at the destination is a cache hit: nothing is fetched. *)
Lemma download_file_cached get url destination fs content :
  fs !! destination = Some content →
  download_file get url destination fs = (fs, Returned ()).
Proof. intros H. unfold download_file. by rewrite H. Qed.

Lemma download_file_complete get url destination fs response :
  fs !! destination = None → get url = Reply response →
  status_code response = 200 → complete (iter_content response) = true →
  download_file get url destination fs
  = (<[destination := received (iter_content response)]> fs, Returned ()).
Proof.
  intros Hfs Hget Hst Hc. unfold download_file. rewrite Hfs, Hget.
  rewrite bool_decide_eq_false_2 by (intros ?; contradiction).
  rewrite write_chunks_spec, Hc. reflexivity.
Qed.

(** C8, as the code has it.  With no file at the destination: when the
    remote answers with a status other than 200 the fetch raises and the
    file system is unchanged, so no file appears at the destination; when
    the status is 200 and the transfer breaks off, the fetch raises, the
    bytes received so far stay at the destination, and any later fetch of
    that destination returns at once without downloading. *)
Theorem download_file_failure (get : string → reply) (url destination : string)
    (fs : gmap string (list Byte.byte)) (response : Response) :
  fs !! destination = None → get url = Reply response →
  (status_code response ≠ 200 →
   download_file get url destination fs = (fs, Raised ("Failed to download " +:+ url))) ∧
  (status_code response = 200 → complete (iter_content response) = false →
   ∃ fs' msg,
     download_file get url destination fs = (fs', Raised msg) ∧
     fs' = <[destination := received (iter_content response)]> fs ∧
     ∀ get', download_file get' url destination fs' = (fs', Returned ())).
Proof.
  intros Hfs Hget. unfold download_file at 1 2. rewrite Hfs, Hget. split.
  - intros Hst. by rewrite bool_decide_eq_true_2.
  - intros Hst Hc. rewrite bool_decide_eq_false_2 by (intros ?; contradiction).
    rewrite write_chunks_spec, Hc. simpl.
    eexists _, _. split; [reflexivity |]. split; [reflexivity |].
    intros get'. eapply download_file_cached. apply lookup_insert_eq.
Qed.

Lemma download_file_failure_witness :
  download_file (fun _ => Reply BrokenNet.not_found) trip_url trip_file ∅
  = (∅, Raised ("Failed to download " +:+ trip_url)) ∧
  ∃ fs' msg,
    download_file BrokenNet.get trip_url trip_file ∅ = (fs', Raised msg) ∧
    fs' = <[trip_file := received (iter_content BrokenNet.response)]> ∅ ∧
    ∀ get', download_file get' trip_url trip_file fs' = (fs', Returned ()).
Proof.
  split.
  - apply (download_file_failure (fun _ => Reply BrokenNet.not_found) trip_url trip_file
             ∅ BrokenNet.not_found); [reflexivity | reflexivity | simpl; lia].
  - apply (download_file_failure BrokenNet.get trip_url trip_file ∅ BrokenNet.response);
      reflexivity.
Defined.

(** C8 fails for an interrupted transfer: with no file at the
    destination and a remote that answers 200 and drops the connection
    after two bytes, the fetch raises but leaves those two bytes at the
    destination; the next fetch, over a working network, finds the file,
    returns at once and downloads nothing. *)
Lemma download_file_leaves_partial_file :
  download_file BrokenNet.get trip_url trip_file ∅
  = (BrokenNet.partial, Raised "ChunkedEncodingError") ∧
  BrokenNet.partial !! trip_file = Some [Byte.x50; Byte.x41] ∧
  download_file SampleNet.get trip_url trip_file BrokenNet.partial
  = (BrokenNet.partial, Returned ()).
Proof.
  split; [by vm_compute |]. split; by vm_compute.
Qed.

(** After such a failure the next load fetches only the zone file and
    hands the partial trip file to the reader: it raises whatever the
    reader raises on those two bytes, and the partial file stays. *)
Lemma load_data_reads_partial_file scan_parquet read_csv msg :
  scan_parquet [Byte.x50; Byte.x41] = Raised msg →
  load_data SampleNet.get scan_parquet read_csv BrokenNet.partial
  = (<[zone_file := [Byte.x52; Byte.x31]]> BrokenNet.partial, Raised msg).
Proof.
  intros Hscan. unfold load_data.
  rewrite (download_file_cached _ _ _ _ [Byte.x50; Byte.x41]) by (by vm_compute).
  erewrite (download_file_complete SampleNet.get zone_url zone_file);
    [| by vm_compute | by vm_compute | reflexivity | reflexivity].
  unfold read_file at 1.
  rewrite lookup_insert_ne by (by vm_compute).
  replace (BrokenNet.partial !! trip_file) with (Some [Byte.x50; Byte.x41])
    by (by vm_compute).
  simpl. by rewrite Hscan.
Qed.

(** ** Group-by *)

Section groupby_facts.
Context {R K : Type} `{EqDecision K}.
Variable le : K → K → Prop.
Context `{∀ x y, Decision (le x y)}.
Variable key : R → option K.

Lemma elem_of_group_keys rows k :
  k ∈ group_keys le key rows ↔ ∃ r, r ∈ rows ∧ key r = Some k.
Proof.
  unfold group_keys. rewrite merge_sort_Permutation, elem_of_remove_dups.
  apply list_elem_of_omap.
Qed.

Lemma NoDup_group_keys rows : NoDup (group_keys le key rows).
Proof.
  unfold group_keys. rewrite merge_sort_Permutation. apply NoDup_remove_dups.
Qed.

Lemma Sorted_group_keys `{!Total le} rows : Sorted le (group_keys le key rows).
Proof. unfold group_keys. by apply Sorted_merge_sort. Qed.

Lemma elem_of_group_rows k rows r :
  r ∈ group_rows key k rows ↔ r ∈ rows ∧ key r = Some k.
Proof.
  unfold group_rows. rewrite elem_of_filter.
  by rewrite bool_decide_eq_true.
Qed.

Lemma group_rows_nonempty k rows :
  k ∈ group_keys le key rows → group_rows key k rows ≠ [].
Proof.
  intros (r & Hr & Hk)%elem_of_group_keys Hnil.
  assert (r ∈ group_rows key k rows) as Hin by by apply elem_of_group_rows.
  rewrite Hnil in Hin. by apply elem_of_nil in Hin.
Qed.

Lemma group_rows_empty k rows :
  k ∉ group_keys le key rows → group_rows key k rows = [].
Proof.
  intros Hk. destruct (group_rows key k rows) as [|r g] eqn:E; [reflexivity |].
  exfalso. apply Hk, elem_of_group_keys. exists r.
  apply elem_of_group_rows. rewrite E. by left.
Qed.
End groupby_facts.

Lemma fmap_fst_keyed {K V} (g : K → V) (l : list K) :
  fst <$> ((fun k => (k, g k)) <$> l) = l.
Proof. induction l as [|k l IH]; simpl; [reflexivity | by f_equal]. Qed.

Lemma zip_fmap_self {A B} (f : A → B) (l : list A) :
  zip l (f <$> l) = (fun x => (x, f x)) <$> l.
Proof. induction l as [|x l IH]; simpl; [reflexivity | by f_equal]. Qed.

Lemma list_to_map_keyed {K V} `{Countable K} (g : K → V) (l : list K) (k : K) :
  NoDup l →
  (list_to_map ((fun k => (k, g k)) <$> l) : gmap K V) !! k
  = if decide (k ∈ l) then Some (g k) else None.
Proof.
  intros Hnd. destruct (decide (k ∈ l)) as [Hin|Hout].
  - apply elem_of_list_to_map_1.
    + by rewrite fmap_fst_keyed.
    + apply list_elem_of_fmap. by exists k.
  - apply not_elem_of_list_to_map_1. by rewrite fmap_fst_keyed.
Qed.

#[global] Instance string_le_total : Total string_le.
Proof. intros a b. apply String.leb_total. Qed.

(** ** Mean fare by hour *)

Lemma series_mean_present (v : Q) (vs : list Q) :
  series_mean (Some <$> (v :: vs))
  = Some (Qsum (v :: vs) / inject_Z (Z.of_nat (length (v :: vs))))%Q.
Proof.
  unfold series_mean.
  assert (∀ l : list Q, omap id (Some <$> l) = l) as Hid.
  { induction l as [|x l IH]; simpl; [reflexivity | by f_equal]. }
  by rewrite Hid.
Qed.

(** C5, as the code has it.  The mean-by-hour aggregate has one entry per
    hour that occurs in the view and none for the other hours: the hours
    are ascending and distinct, an hour is listed exactly when some row
    of the view has it, every listed hour has at least one row, and its
    value is the mean of the fares of its rows (the arithmetic mean, sum
    over count, of the fares that are present). *)
Theorem avg_fare_hour_groups (filtered_df : list Trip) :
  Sorted Z.le (fst <$> avg_fare_hour filtered_df) ∧
  NoDup (fst <$> avg_fare_hour filtered_df) ∧
  (∀ h, h ∈ (fst <$> avg_fare_hour filtered_df) ↔
        ∃ r, r ∈ filtered_df ∧ pickup_hour r = Some h) ∧
  Forall (fun hm =>
            group_rows pickup_hour hm.1 filtered_df ≠ [] ∧
            hm.2 = series_mean (fare_amount <$> group_rows pickup_hour hm.1 filtered_df))
         (avg_fare_hour filtered_df) ∧
  (∀ v vs, series_mean (Some <$> (v :: vs))
           = Some (Qsum (v :: vs) / inject_Z (Z.of_nat (length (v :: vs))))%Q).
Proof.
  unfold avg_fare_hour. rewrite fmap_fst_keyed.
  split; [apply Sorted_group_keys, _ |].
  split; [apply NoDup_group_keys |].
  split; [apply elem_of_group_keys |].
  split; [| apply series_mean_present].
  apply Forall_forall. intros hm (h & -> & Hh)%list_elem_of_fmap. simpl.
  split; [by eapply group_rows_nonempty | reflexivity].
Qed.

(** C5 fails on a sparse view: two hours occur in the sample table, and
    the aggregate has those two entries, not 24. *)
Lemma avg_fare_hour_omits_empty_hours :
  fst <$> avg_fare_hour Sample.df = [5; 9] ∧
  length (avg_fare_hour Sample.df) ≠ 24%nat.
Proof. split; [reflexivity | by vm_compute]. Qed.

(** ** The day-by-hour cross-tab *)

Lemma heatmap_cell view d h :
  default 0%nat
    ((list_to_map (groupby_size day_hour_le day_hour_key view) : gmap (string * Z) nat)
       !! (d, h))
  = trip_count view d h.
Proof.
  unfold groupby_size, trip_count.
  rewrite (list_to_map_keyed (fun k => length (group_rows day_hour_key k view)))
    by apply NoDup_group_keys.
  destruct (decide _) as [Hin|Hout]; simpl; [reflexivity |].
  by rewrite (group_rows_empty day_hour_le).
Qed.

Lemma pivot_columns view h :
  h ∈ grid_columns (pivot (groupby_size day_hour_le day_hour_key view)) ↔
  ∃ r d, r ∈ view ∧ day_hour_key r = Some (d, h).
Proof.
  simpl. rewrite merge_sort_Permutation, elem_of_remove_dups, list_elem_of_fmap.
  unfold groupby_size. split.
  - intros ([[d h'] n] & -> & He). simpl.
    apply list_elem_of_fmap in He as (k & [= <- ->] & Hk).
    apply elem_of_group_keys in Hk as (r & Hr & Hk).
    by exists r, d.
  - intros (r & d & Hr & Hk).
    exists ((d, h), length (group_rows day_hour_key (d, h) view)). split; [reflexivity |].
    apply list_elem_of_fmap. exists (d, h). split; [reflexivity |].
    apply elem_of_group_keys. by exists r.
Qed.

Lemma pivot_index_absent view d h :
  d ∉ grid_index (pivot (groupby_size day_hour_le day_hour_key view)) →
  (list_to_map (groupby_size day_hour_le day_hour_key view) : gmap (string * Z) nat)
    !! (d, h) = None.
Proof.
  simpl. rewrite merge_sort_Permutation, elem_of_remove_dups. intros Hd.
  apply not_elem_of_list_to_map_1. intros Hin. apply Hd.
  apply list_elem_of_fmap in Hin as (e & He & Hin).
  apply list_elem_of_fmap. exists e. split; [by rewrite <- He | assumption].
Qed.

Lemma reindex_lookup {A} (idx : list string) (cols : list Z)
    (cell : string → Z → option A) (d : string) :
  NoDup idx → (∀ h, d ∉ idx → cell d h = None) →
  default (replicate (length cols) None)
    ((list_to_map (zip idx ((fun d => cell d <$> cols) <$> idx))
      : gmap string (list (option A))) !! d)
  = cell d <$> cols.
Proof.
  intros Hnd Hcell. rewrite zip_fmap_self, list_to_map_keyed by exact Hnd.
  destruct (decide (d ∈ idx)) as [Hin|Hout]; [reflexivity |]. simpl.
  induction cols as [|h cols IH]; simpl; [reflexivity |].
  f_equal; [symmetry; by apply Hcell | exact IH].
Qed.

(** C3, as the code has it.  The cross-tab has the seven rows Monday to
    Sunday in that order, whatever the view; its columns are the hours
    that occur in the view (ascending, distinct), not the fixed 24; and
    every cell is the number of rows of the view with that day and hour,
    which is 0 when there is none. *)
Theorem heatmap_data_shape (filtered_df : list Trip) :
  grid_index (heatmap_data filtered_df) = day_order ∧
  length (grid_values (heatmap_data filtered_df)) = 7%nat ∧
  Sorted Z.le (grid_columns (heatmap_data filtered_df)) ∧
  NoDup (grid_columns (heatmap_data filtered_df)) ∧
  (∀ h, h ∈ grid_columns (heatmap_data filtered_df) ↔
        ∃ r d, r ∈ filtered_df ∧ day_hour_key r = Some (d, h)) ∧
  grid_values (heatmap_data filtered_df)
  = (fun d => (fun h => trip_count filtered_df d h)
                <$> grid_columns (heatmap_data filtered_df)) <$> day_order.
Proof.
  split; [reflexivity |]. split; [reflexivity |].
  split; [simpl; apply Sorted_merge_sort, _ |].
  split; [simpl; rewrite merge_sort_Permutation; apply NoDup_remove_dups |].
  split; [apply pivot_columns |].
  unfold heatmap_data, fillna, reindex.
  set (long := groupby_size day_hour_le day_hour_key filtered_df).
  assert (NoDup (grid_index (pivot long))) as Hnd.
  { simpl. rewrite merge_sort_Permutation. apply NoDup_remove_dups. }
  cbn [grid_values grid_columns grid_index].
  rewrite <- list_fmap_compose. apply list_fmap_ext. intros _ d _.
  cbn [compose].
  assert (default (replicate (length (grid_columns (pivot long))) None)
            ((list_to_map (zip (grid_index (pivot long)) (grid_values (pivot long)))
              : gmap string (list (option nat))) !! d)
          = (fun h => (list_to_map long : gmap (string * Z) nat) !! (d, h))
              <$> grid_columns (pivot long)) as ->.
  { apply (reindex_lookup (grid_index (pivot long)) (grid_columns (pivot long))
             (fun d h => (list_to_map long : gmap (string * Z) nat) !! (d, h)) d Hnd).
    intros h Hd. by apply pivot_index_absent. }
  rewrite <- list_fmap_compose. apply list_fmap_ext. intros _ h _.
  apply heatmap_cell.
Qed.

(** C3 fails on a sparse view: the sample table has trips at two hours
    only, and the cross-tab has those two columns, not 24. *)
Lemma heatmap_data_sparse_columns :
  grid_index (heatmap_data Sample.df) = day_order ∧
  grid_columns (heatmap_data Sample.df) = [5; 9] ∧
  length (grid_columns (heatmap_data Sample.df)) ≠ 24%nat.
Proof. split; [reflexivity |]. split; by vm_compute. Qed.

(** ** Sorting by count *)

#[global] Instance count_desc_trans {K} : Transitive (@count_desc K).
Proof. intros a b c. unfold count_desc. lia. Qed.

Lemma insert_desc_perm {K} b (x : K * nat) l : insert_desc b x l ≡ₚ x :: l.
Proof.
  induction l as [|y l IH]; simpl; [reflexivity |].
  destruct (if b then _ else _); [reflexivity |].
  rewrite IH. apply Permutation_swap.
Qed.

Lemma insert_desc_sorted {K} b (x : K * nat) l :
  Sorted count_desc l → Sorted count_desc (insert_desc b x l).
Proof.
  induction l as [|y l IH]; simpl; intros Hs.
  - repeat constructor.
  - destruct (if b then (y.2 <=? x.2)%nat else (y.2 <? x.2)%nat) eqn:E.
    + constructor; [assumption |]. constructor. unfold count_desc.
      destruct b; [apply Nat.leb_le in E | apply Nat.ltb_lt in E]; lia.
    + assert (x.2 ≤ y.2)%nat as Hxy.
      { destruct b; [apply Nat.leb_gt in E | apply Nat.ltb_ge in E]; lia. }
      apply Sorted_inv in Hs as [Hs Hhd].
      constructor; [by apply IH |].
      destruct l as [|z l]; simpl.
      * by constructor.
      * apply HdRel_inv in Hhd.
        destruct (if b then (z.2 <=? x.2)%nat else (z.2 <? x.2)%nat);
          by constructor.
Qed.

Lemma insertion_sorts_descending b :
  sorts_descending (fun K l => foldr (insert_desc b) [] l).
Proof.
  split; intros K l; induction l as [|x l IH]; simpl.
  - reflexivity.
  - by rewrite insert_desc_perm, IH.
  - constructor.
  - by apply insert_desc_sorted.
Qed.

Lemma stable_sort_desc_ok : sorts_descending stable_sort_desc.
Proof. apply (insertion_sorts_descending true). Qed.

Lemma reversing_sort_desc_ok : sorts_descending reversing_sort_desc.
Proof. apply (insertion_sorts_descending false). Qed.

Lemma sort_values_nil sort_values K :
  sorts_descending sort_values → sort_values K [] = [].
Proof. intros [Hperm _]. apply Permutation_nil_r, Hperm. Qed.

Lemma elem_of_sort_values sort_values K (l : list (K * nat)) x :
  sorts_descending sort_values → x ∈ sort_values K l ↔ x ∈ l.
Proof. intros [Hperm _]. by rewrite Hperm. Qed.

(** ** Top pickup zones *)

(** C6, as the code has it.  For any sorting routine that meets what
    pandas promises of [sort_values], the top-zones aggregate has at most
    10 entries, descending by trip count, one per zone; each entry's
    count is the number of joined rows of its zone (at least one), and no
    zone left out has more trips than a zone kept.  The order among equal
    counts is the routine's own: the code gives no secondary key. *)
Theorem top_zones_sorted (sort_values : ∀ K, list (K * nat) → list (K * nat))
    (filtered_df : list Trip) (zones : list ZoneRow) :
  sorts_descending sort_values →
  (length (top_zones sort_values filtered_df zones) ≤ 10)%nat ∧
  Sorted count_desc (top_zones sort_values filtered_df zones) ∧
  NoDup (fst <$> top_zones sort_values filtered_df zones) ∧
  Forall (fun zc =>
            zc.2 = length (group_rows zone_key zc.1 (merge_zones filtered_df zones)) ∧
            (0 < zc.2)%nat)
         (top_zones sort_values filtered_df zones) ∧
  (∀ zc t, zc ∈ groupby_size string_le zone_key (merge_zones filtered_df zones) →
           zc ∉ top_zones sort_values filtered_df zones →
           t ∈ top_zones sort_values filtered_df zones → (zc.2 ≤ t.2)%nat).
Proof.
  intros Hsv. unfold top_zones.
  set (groups := groupby_size string_le zone_key (merge_zones filtered_df zones)).
  set (sorted := sort_values string groups).
  assert (StronglySorted count_desc (take 10 sorted ++ drop 10 sorted)) as Hss.
  { rewrite take_drop. apply Sorted_StronglySorted; [apply _ |].
    apply (sort_values_sorted _ Hsv). }
  assert (∀ x, x ∈ take 10 sorted → x ∈ groups) as Hin.
  { intros x Hx. apply (elem_of_sort_values sort_values _ groups x Hsv).
    eapply elem_of_sublist; [exact Hx | apply sublist_take]. }
  split; [rewrite length_take; lia |].
  split; [apply StronglySorted_Sorted; by apply StronglySorted_app_1_l in Hss |].
  split.
  { rewrite fmap_take. eapply sublist_NoDup; [| apply sublist_take].
    assert (fst <$> sorted ≡ₚ fst <$> groups) as ->.
    { unfold sorted. by rewrite (sort_values_perm _ Hsv). }
    unfold groups, groupby_size. rewrite fmap_fst_keyed. apply NoDup_group_keys. }
  split.
  { apply Forall_forall. intros zc Hzc. apply Hin in Hzc.
    unfold groups, groupby_size in Hzc.
    apply list_elem_of_fmap in Hzc as (z & -> & Hz). simpl.
    split; [reflexivity |].
    pose proof (group_rows_nonempty string_le zone_key z _ Hz) as Hne.
    destruct (group_rows zone_key z (merge_zones filtered_df zones));
      [congruence | simpl; lia]. }
  intros zc t Hzc Hout Ht.
  apply (elem_of_sort_values sort_values _ groups zc Hsv) in Hzc.
  fold sorted in Hzc. rewrite <- (take_drop 10 sorted) in Hzc.
  apply elem_of_app in Hzc as [Hzc | Hzc]; [contradiction |].
  exact (StronglySorted_app_1_elem_of _ _ _ t zc Hss Ht Hzc).
Qed.

Lemma top_zones_sorted_witness :
  (length (top_zones stable_sort_desc Sample.df Sample.zones) ≤ 10)%nat ∧
  Sorted count_desc (top_zones stable_sort_desc Sample.df Sample.zones).
Proof.
  pose proof (top_zones_sorted stable_sort_desc Sample.df Sample.zones
                stable_sort_desc_ok) as (Hlen & Hsorted & _).
  split; [exact Hlen | exact Hsorted].
Defined.

(** C6 fails on ties: two routines that both sort descending by count
    put the two one-trip zones of the sample in opposite orders, so the
    code together with the library's contract fixes no tie order. *)
Lemma top_zones_tie_order_open :
  sorts_descending stable_sort_desc ∧ sorts_descending reversing_sort_desc ∧
  top_zones stable_sort_desc (take 2 Sample.df) Sample.zones
  = [("Jamaica Bay", 1%nat); ("Newark Airport", 1%nat)]%string ∧
  top_zones reversing_sort_desc (take 2 Sample.df) Sample.zones
  = [("Newark Airport", 1%nat); ("Jamaica Bay", 1%nat)]%string.
Proof.
  split; [apply stable_sort_desc_ok |]. split; [apply reversing_sort_desc_ok |].
  split; reflexivity.
Qed.

(** ** Payment-type distribution *)

Lemma dict_get_known k :
  0 ≤ k ∧ k ≤ 4 → ∃ l, dict_get payment_map k = Some l ∧ (k, l) ∈ payment_map.
Proof.
  intros Hk.
  assert (k = 0 ∨ k = 1 ∨ k = 2 ∨ k = 3 ∨ k = 4) as Hcases by lia.
  clear Hk. destruct Hcases as [-> | [-> | [-> | [-> | ->]]]];
    eexists; (split; [reflexivity |]); unfold payment_map; set_solver.
Qed.





(** The lookup of the aggregate itself, [.map(payment_map)], has no
    fallback.  On a frame that held payment code 5 the row for 5 would
    have no label; the filter lets no such frame through (the sample
    table has a code-5 row, its filtered views have none). *)
Lemma map_labels_without_fallback :
  (fun row => (pb_payment_type row, pb_payment_type_labelled row))
    <$> payment_breakdown stable_sort_desc Sample.df
  = [(1, Some "Credit Card"); (2, Some "Cash"); (5, None)]%string.
Proof. reflexivity. Qed.

(** ** Empty views *)

Lemma groupby_size_nil {R K} `{EqDecision K} (le : K → K → Prop)
    `{∀ x y, Decision (le x y)} (key : R → option K) :
  groupby_size le key [] = [].
Proof. reflexivity. Qed.

(** C4. On a view with no rows: the top zones, the mean fare by hour and
    the payment distribution are empty, the cross-tab has its seven day
    rows and no column, the histogram gets no value, and the key-metrics
    block with its means is skipped.  A mean is never a division by
    zero: the mean of no value is undefined ([None]), and every hour
    listed by the mean-by-hour aggregate of any view has at least one
    row. *)
Theorem aggregates_on_empty_view (sort_values : ∀ K, list (K * nat) → list (K * nat))
    (zones : list ZoneRow) :
  sorts_descending sort_values →
  top_zones sort_values [] zones = [] ∧
  avg_fare_hour [] = [] ∧
  payment_breakdown sort_values [] = [] ∧
  heatmap_data [] = mkGrid day_order [] (replicate 7 []) ∧
  histogram_x [] = [] ∧
  key_metrics [] = None ∧
  series_mean [] = None ∧
  (∀ view, Forall (fun hm => group_rows pickup_hour hm.1 view ≠ []) (avg_fare_hour view)).
Proof.
  intros Hsv.
  split.
  { unfold top_zones. change (merge_zones [] zones) with (@nil (Trip * ZoneRow)).
    by rewrite groupby_size_nil, (sort_values_nil _ _ Hsv). }
  split; [reflexivity |].
  split.
  { unfold payment_breakdown, value_counts_normalized.
    change (omap id (payment_type <$> [])) with (@nil Z).
    change (remove_dups []) with (@nil Z).
    by rewrite fmap_nil, (sort_values_nil _ _ Hsv). }
  split; [reflexivity |]. split; [reflexivity |].
  split; [reflexivity |]. split; [reflexivity |].
  intros view. apply Forall_forall.
  intros hm (h & -> & Hh)%list_elem_of_fmap. simpl.
  by eapply group_rows_nonempty.
Qed.

Lemma aggregates_on_empty_view_witness :
  top_zones stable_sort_desc [] Sample.zones = [] ∧
  payment_breakdown stable_sort_desc [] = [] ∧
  heatmap_data [] = mkGrid day_order [] (replicate 7 []).
Proof.
  pose proof (aggregates_on_empty_view stable_sort_desc Sample.zones stable_sort_desc_ok)
    as (Htop & _ & Hpay & Hheat & _).
  split; [exact Htop |]. split; [exact Hpay | exact Hheat].
Defined.

(** * Further properties of the filter and the pipeline *)

Lemma filter_all {A} (p : A → bool) (l : list A) :
  Forall (fun x => p x = true) l → List.filter p l = l.
Proof.
  induction 1 as [|x l Hx _ IH]; simpl; [reflexivity |].
  rewrite Hx. by f_equal.
Qed.

Lemma filter_none {A} (p : A → bool) (l : list A) :
  Forall (fun x => p x = false) l → List.filter p l = [].
Proof.
  induction 1 as [|x l Hx _ IH]; simpl; [reflexivity |]. by rewrite Hx.
Qed.

(** X1.  The view is exactly the rows of the table that meet the criteria. *)
Theorem filtered_polars_exact (df : list Trip) (d0 d1 h0 h1 : Z) (ids : list Z) :
  ∃ view, filtered_polars df [d0; d1] (h0, h1) ids = Some view ∧
          ∀ r, r ∈ view ↔ r ∈ df ∧ meets_criteria d0 d1 h0 h1 ids r.
Proof.
  eexists. split; [reflexivity |]. intros r. simpl.
  rewrite elem_of_filter. by rewrite filter_pred_spec.
Qed.

(** X2.  When every row of the table meets the criteria (the widest ranges
    and every code selected), filtering changes nothing. *)
Theorem filtered_polars_noop (df : list Trip) (d0 d1 h0 h1 : Z) (ids : list Z) :
  Forall (meets_criteria d0 d1 h0 h1 ids) df →
  filtered_polars df [d0; d1] (h0, h1) ids = Some df.
Proof.
  intros Hall. simpl. f_equal. apply filter_all.
  eapply Forall_impl; [exact Hall |]. intros r Hr. by apply filter_pred_spec.
Qed.

Lemma take2_sample_meets_criteria :
  Forall (meets_criteria 19723 19753 0 23 [1; 2]) (take 2 Sample.df).
Proof.
  repeat constructor.
  - exists Sample.monday_5am, 5, 1, (5 # 2)%Q.
    repeat split; try reflexivity; try (by vm_compute); set_solver.
  - exists Sample.tuesday_9am, 9, 2, (3 # 1)%Q.
    repeat split; try reflexivity; try (by vm_compute); set_solver.
Qed.

Lemma filtered_polars_noop_witness :
  filtered_polars (take 2 Sample.df) [19723; 19753] (0, 23) [1; 2]
  = Some (take 2 Sample.df).
Proof.
  apply (filtered_polars_noop (take 2 Sample.df) 19723 19753 0 23 [1; 2]).
  exact take2_sample_meets_criteria.
Defined.

(** X3.  The filter raises exactly when the date widget has returned fewer
    than two dates (a range whose end is not picked yet). *)
Theorem filtered_polars_needs_two_dates (df : list Trip) (date_range : list Z)
    (hour_range : Z * Z) (ids : list Z) :
  filtered_polars df date_range hour_range ids = None ↔ (length date_range < 2)%nat.
Proof.
  unfold filtered_polars. destruct date_range as [|d0 [|d1 rest]]; simpl.
  - split; [lia | reflexivity].
  - split; [lia | reflexivity].
  - split; [discriminate | lia].
Qed.

(** X4.  With no payment type selected the view is empty, whatever the table
    and the ranges, and the key-metrics block is skipped. *)
Theorem filtered_polars_nothing_selected (df : list Trip) (d0 d1 h0 h1 : Z) :
  selected_ids [] = [] ∧
  filtered_polars df [d0; d1] (h0, h1) (selected_ids []) = Some [] ∧
  key_metrics [] = None.
Proof.
  split; [reflexivity |]. split; [| reflexivity].
  simpl. f_equal. apply filter_none, Forall_forall. intros r _.
  destruct (Expr.holds _) eqn:E; [| reflexivity].
  apply filter_pred_spec in E
    as (t & h & p & dist & _ & _ & _ & _ & _ & _ & Hin & _).
  by apply elem_of_nil in Hin.
Qed.

(** X5.  On a table that has the pipeline's invariant, the distance test of
    the filter never removes a row: the view is the one the date, hour
    and payment tests alone would give. *)
Theorem filtered_polars_distance_redundant (df : list Trip) (d0 d1 h0 h1 : Z)
    (ids : list Z) :
  Forall trip_invariant df →
  filtered_polars df [d0; d1] (h0, h1) ids
  = Some (List.filter
            (fun r => Expr.holds (filter_pred_no_distance d0 d1 h0 h1 ids r)) df).
Proof.
  intros Hinv. simpl. f_equal.
  induction Hinv as [|r df Hr _ IH]; simpl; [reflexivity |].
  rewrite IH.
  assert (Expr.holds (filter_pred d0 d1 h0 h1 ids r)
          = Expr.holds (filter_pred_no_distance d0 d1 h0 h1 ids r)) as ->;
    [| reflexivity].
  destruct Hr as (p & loc & dist & fare & dur & h & _ & _ & Hdist & _ & _ & _
                  & Hd0 & Hd1 & _).
  unfold filter_pred. fold (filter_pred_no_distance d0 d1 h0 h1 ids r).
  assert (Expr.holds (Expr.q_gt (trip_distance r) 0) = true) as Hgt.
  { apply holds_q_gt. by exists dist. }
  assert (Expr.holds (Expr.q_le (trip_distance r) 100) = true) as Hle.
  { apply holds_q_le. by exists dist. }
  destruct (Expr.holds (filter_pred_no_distance d0 d1 h0 h1 ids r)) eqn:E.
  - apply holds_and. split; [apply holds_and; by split | exact Hle].
  - destruct (Expr.holds (_ &&& _ &&& _)) eqn:E'; [| reflexivity].
    apply holds_and in E' as [E' _]. apply holds_and in E' as [E' _]. congruence.
Qed.

Lemma sample_df_invariant : Forall trip_invariant Sample.df.
Proof.
  eapply Forall_impl; [exact (collect_trips_invariants Sample.scan) |].
  by intros r [Hr _].
Qed.

Lemma filtered_polars_distance_redundant_witness :
  filtered_polars Sample.df [19723; 19753] (0, 23) [1; 2]
  = Some (List.filter
            (fun r => Expr.holds (filter_pred_no_distance 19723 19753 0 23 [1; 2] r))
            Sample.df).
Proof.
  apply (filtered_polars_distance_redundant Sample.df 19723 19753 0 23 [1; 2]).
  exact sample_df_invariant.
Defined.

(** ** The cleaning plan, row by row *)

Lemma raw_valid_kept raw :
  raw_valid raw → has_required raw = true ∧ Expr.holds (valid_trip raw) = true.
Proof.
  intros (p & d & loc & dist & fare & Hp & Hd & Hloc & Hdist & Hfare
          & Hd0 & Hd1 & Hf0 & Hf1 & Hpd).
  unfold has_required, valid_trip. rewrite Hp, Hd, Hloc, Hdist, Hfare.
  split; [reflexivity |].
  rewrite !holds_and, !holds_q_gt, !holds_q_le, holds_z_ge.
  repeat split; eauto.
Qed.

(** X6.  The plan treats each scanned row on its own: cleaning a file read in
    two parts gives the two cleaned parts, in order. *)
Theorem collect_trips_app (scan1 scan2 : list RawTrip) :
  collect_trips (scan1 ++ scan2) = collect_trips scan1 ++ collect_trips scan2.
Proof.
  unfold collect_trips, with_columns, filter_valid, drop_nulls.
  by rewrite !List.filter_app, !fmap_app.
Qed.

(** X7.  No valid row is lost: a scanned row with the five required cells
    present and within bounds is in the table, with its derived columns. *)
Theorem collect_trips_keeps_valid (scan : list RawTrip) (raw : RawTrip) :
  raw ∈ scan → raw_valid raw → select_cols (derive raw) ∈ collect_trips scan.
Proof.
  intros Hin [Hreq Hvalid]%raw_valid_kept.
  unfold collect_trips, with_columns, filter_valid, drop_nulls.
  apply list_elem_of_fmap_2, list_elem_of_fmap_2.
  apply elem_of_filter. split; [| exact Hvalid].
  apply elem_of_filter. by split.
Qed.

Lemma sample_first_row_valid :
  raw_valid (Sample.raw Sample.monday_5am (Sample.monday_5am + 15 * us_per_minute)
               1 (5 # 2) 12 1).
Proof.
  eexists _, _, _, _, _.
  repeat split; try reflexivity; by vm_compute.
Qed.

Lemma collect_trips_keeps_valid_witness :
  select_cols (derive (Sample.raw Sample.monday_5am
                         (Sample.monday_5am + 15 * us_per_minute) 1 (5 # 2) 12 1))
  ∈ collect_trips Sample.scan.
Proof.
  apply collect_trips_keeps_valid; [| exact sample_first_row_valid].
  unfold Sample.scan. by left.
Defined.

Lemma total_minutes_floor d :
  0 ≤ d →
  total_minutes d * us_per_minute ≤ d ∧ d < (total_minutes d + 1) * us_per_minute.
Proof.
  intros Hd. unfold total_minutes, us_per_minute.
  pose proof (Z.quot_rem' d 60000000) as Heq.
  pose proof (Z.rem_bound_pos d 60000000 Hd ltac:(lia)) as Hrem.
  lia.
Qed.

Lemma strftime_A_in_day_order t : strftime_A t ∈ day_order.
Proof.
  unfold strftime_A.
  pose proof (Z.mod_pos_bound (dt_date t + 3) 7 ltac:(lia)) as Hm.
  set (m := (dt_date t + 3) mod 7) in *.
  assert (m = 0 ∨ m = 1 ∨ m = 2 ∨ m = 3 ∨ m = 4 ∨ m = 5 ∨ m = 6) as Hcases by lia.
  clear Hm. unfold day_order.
  destruct Hcases as [-> | [-> | [-> | [-> | [-> | [-> | ->]]]]]]; simpl; set_solver.
Qed.

(** The subtraction wraps around: a dropoff 2^63 microseconds after the
    pickup passes the cleaning and gets a negative duration. *)
Lemma duration_wraps_around :
  trip_duration_minutes <$>
    collect_trips [Sample.raw (- 2 ^ 62) (2 ^ 62) 1 (5 # 2) 12 1]
  = [Some (-153722867280)].
Proof. reflexivity. Qed.

(** X8.  Every row of the table carries the columns derived from its own
    pickup and dropoff, where dropoff >= pickup: the duration is the whole
    minutes, truncated, of the 64-bit difference dropoff - pickup;
    whenever the difference fits 64 bits this is the whole minutes of the
    trip, rounded down (a trip of under a minute has duration 0) and not
    negative; the hour is the hour of the pickup, and the weekday is one of
    the seven English day names. *)
Theorem collect_trips_derived (scan : list RawTrip) :
  Forall (fun r =>
            ∃ raw p d,
              raw ∈ scan ∧ raw_pickup raw = Some p ∧ raw_dropoff raw = Some d ∧
              p ≤ d ∧
              trip_duration_minutes r = Some (total_minutes (wrap_i64 (d - p))) ∧
              (d - p ≤ i64_max →
               trip_duration_minutes r = Some (total_minutes (d - p)) ∧
               0 ≤ total_minutes (d - p) ∧
               total_minutes (d - p) * us_per_minute ≤ d - p ∧
               d - p < (total_minutes (d - p) + 1) * us_per_minute) ∧
              pickup_hour r = Some (dt_hour p) ∧
              pickup_day_of_week r = Some (strftime_A p) ∧
              strftime_A p ∈ day_order)
         (collect_trips scan).
Proof.
  eapply Forall_impl; [exact (collect_trips_invariants scan) |].
  intros r (_ & raw & Hin & Hvalid & ->).
  destruct Hvalid as (p & d & loc & dist & fare & Hp & Hd & _ & _ & _ & _ & _ & _ & _ & Hpd).
  exists raw, p, d.
  pose proof (total_minutes_floor (d - p) ltac:(lia)) as [Hlo Hhi].
  pose proof (total_minutes_nonneg (d - p) ltac:(lia)) as Hnn.
  unfold select_cols, derive, duration_us. simpl. rewrite Hp, Hd. simpl.
  split; [assumption |]. split; [reflexivity |]. split; [reflexivity |].
  split; [assumption |]. split; [reflexivity |].
  split.
  - intros Hfit. rewrite wrap_i64_fits by (unfold i64_min; lia). tauto.
  - split; [reflexivity |]. split; [reflexivity |]. apply strftime_A_in_day_order.
Qed.

Lemma collect_trips_derived_witness :
  Forall (fun r =>
            ∃ raw p d,
              raw ∈ Sample.scan ∧ raw_pickup raw = Some p ∧ raw_dropoff raw = Some d ∧
              p ≤ d ∧
              trip_duration_minutes r = Some (total_minutes (wrap_i64 (d - p))) ∧
              (d - p ≤ i64_max →
               trip_duration_minutes r = Some (total_minutes (d - p)) ∧
               0 ≤ total_minutes (d - p) ∧
               total_minutes (d - p) * us_per_minute ≤ d - p ∧
               d - p < (total_minutes (d - p) + 1) * us_per_minute) ∧
              pickup_hour r = Some (dt_hour p) ∧
              pickup_day_of_week r = Some (strftime_A p) ∧
              strftime_A p ∈ day_order)
         (collect_trips Sample.scan).
Proof. exact (collect_trips_derived Sample.scan). Defined.

(** X9.  The calendar arithmetic: an instant is its date, plus its hour of
    day, plus less than an hour (also before 1970); the hour is in 0..23;
    the weekday name repeats every seven days and the day after the epoch
    day, a Thursday, is a Friday. *)
Theorem timestamp_decomposition (t : Z) :
  t = dt_date t * us_per_day + dt_hour t * us_per_hour + t mod us_per_hour ∧
  (0 ≤ t mod us_per_hour ∧ t mod us_per_hour < us_per_hour) ∧
  (0 ≤ dt_hour t ∧ dt_hour t ≤ 23) ∧
  strftime_A (t + 7 * us_per_day) = strftime_A t ∧
  strftime_A 0 = "Thursday"%string ∧ strftime_A us_per_day = "Friday"%string.
Proof.
  split.
  { unfold dt_date, dt_hour, us_per_day, us_per_hour.
    pose proof (Z.div_mod t 86400000000 ltac:(lia)) as Hday.
    assert (t mod (3600000000 * 24)
            = t mod 3600000000 + 3600000000 * ((t / 3600000000) mod 24)) as Hmod
      by (apply Z.rem_mul_r; lia).
    change (3600000000 * 24) with 86400000000 in Hmod. lia. }
  split; [apply Z.mod_pos_bound; unfold us_per_hour; lia |].
  split; [apply dt_hour_range |].
  split; [| split; reflexivity].
  unfold strftime_A, dt_date, us_per_day.
  rewrite Z.div_add by lia.
  replace (t / 86400000000 + 7 + 3) with (t / 86400000000 + 3 + 1 * 7) by lia.
  by rewrite Z.mod_add by lia.
Qed.

(** ** The fetcher and the load, across runs *)

Lemma download_file_returned get url destination fs fs' :
  download_file get url destination fs = (fs', Returned ()) →
  is_Some (fs' !! destination).
Proof.
  unfold download_file.
  destruct (fs !! destination) as [content|] eqn:Hfs.
  - intros [= <-]. by rewrite Hfs.
  - destruct (get url) as [|response]; [discriminate |].
    destruct (bool_decide _); [discriminate |].
    destruct (write_chunks [] (iter_content response)) as [content ok].
    intros [= <- _]. rewrite lookup_insert_eq. by eexists.
Qed.

Lemma download_file_other_paths (get : string → reply) (url destination path : string)
    (fs : gmap string (list Byte.byte)) :
  path ≠ destination →
  (download_file get url destination fs).1 !! path = fs !! path.
Proof.
  intros Hne. unfold download_file.
  destruct (fs !! destination); [reflexivity |].
  destruct (get url) as [|response]; [reflexivity |].
  destruct (bool_decide _); [reflexivity |].
  destruct (write_chunks [] (iter_content response)) as [content ok]. simpl.
  by rewrite lookup_insert_ne.
Qed.

(** X10.  Whatever the outcome, a fetch touches no path but its destination:
    every other file is as it was, present or absent. *)
Theorem download_file_frame (get : string → reply) (url destination path : string)
    (fs : gmap string (list Byte.byte)) :
  path ≠ destination →
  (download_file get url destination fs).1 !! path = fs !! path.
Proof. apply download_file_other_paths. Qed.

Lemma download_file_frame_witness :
  (download_file BrokenNet.get trip_url trip_file SampleNet.disk).1 !! zone_file
  = SampleNet.disk !! zone_file.
Proof.
  apply (download_file_frame BrokenNet.get trip_url trip_file zone_file SampleNet.disk).
  by vm_compute.
Defined.

(** X11.  A fetch that returns leaves a file that every later fetch of the same
    destination accepts as it is: the second call downloads nothing and
    changes nothing, whatever the network does by then. *)
Theorem download_file_idempotent (get get' : string → reply) (url destination : string)
    (fs fs' : gmap string (list Byte.byte)) :
  download_file get url destination fs = (fs', Returned ()) →
  download_file get' url destination fs' = (fs', Returned ()).
Proof.
  intros [content Hc]%download_file_returned.
  by eapply download_file_cached.
Qed.

Lemma download_file_idempotent_witness :
  download_file BrokenNet.get zone_url zone_file
    (<[zone_file := [Byte.x52; Byte.x31]]> ∅)
  = (<[zone_file := [Byte.x52; Byte.x31]]> ∅, Returned ()).
Proof.
  apply (download_file_idempotent SampleNet.get BrokenNet.get zone_url zone_file ∅).
  by vm_compute.
Defined.

(** X12.  A complete transfer with status 200 stores the chunks of the body,
    concatenated in the order received, at the destination. *)
Theorem download_file_stores_body (get : string → reply) (url destination : string)
    (fs : gmap string (list Byte.byte)) (response : Response) :
  fs !! destination = None → get url = Reply response →
  status_code response = 200 → complete (iter_content response) = true →
  ∃ fs', download_file get url destination fs = (fs', Returned ()) ∧
         fs' !! destination = Some (received (iter_content response)).
Proof.
  intros Hfs Hget Hst Hc. eexists. split.
  - by apply download_file_complete.
  - apply lookup_insert_eq.
Qed.

Lemma download_file_stores_body_witness :
  ∃ fs', download_file SampleNet.get trip_url trip_file ∅ = (fs', Returned ()) ∧
         fs' !! trip_file = Some [Byte.x50; Byte.x41; Byte.x52; Byte.x31].
Proof.
  apply (download_file_stores_body SampleNet.get trip_url trip_file ∅
           (mkResponse 200 SampleNet.body)); reflexivity.
Defined.

(** X13.  After a load that returned, both files are on disk and a second load
    on that disk returns the same table and zones without any download,
    even with the network down. *)
Theorem load_data_reload (get get' : string → reply)
    (scan_parquet : list Byte.byte → result (list RawTrip))
    (read_csv : list Byte.byte → result (list ZoneRow))
    (fs fs' : gmap string (list Byte.byte)) (loaded : list Trip * list ZoneRow) :
  load_data get scan_parquet read_csv fs = (fs', Returned loaded) →
  is_Some (fs' !! trip_file) ∧ is_Some (fs' !! zone_file) ∧
  load_data get' scan_parquet read_csv fs' = (fs', Returned loaded).
Proof.
  unfold load_data at 1. intros Hload.
  destruct (download_file get trip_url trip_file fs) as [fs1 [[]|msg]] eqn:E1;
    [| discriminate].
  destruct (download_file get zone_url zone_file fs1) as [fs2 [[]|msg]] eqn:E2;
    [| discriminate].
  destruct (read_file scan_parquet fs2 trip_file) as [scan|msg] eqn:Escan;
    [| discriminate].
  destruct (read_file read_csv fs2 zone_file) as [zs|msg] eqn:Ezs; [| discriminate].
  injection Hload as <- <-.
  destruct (fs2 !! trip_file) as [trips|] eqn:Etrips;
    [| unfold read_file in Escan; by rewrite Etrips in Escan].
  destruct (fs2 !! zone_file) as [zones|] eqn:Ezones;
    [| unfold read_file in Ezs; by rewrite Ezones in Ezs].
  split; [by eexists |]. split; [by eexists |].
  unfold load_data.
  rewrite (download_file_cached get' trip_url trip_file fs2 trips Etrips).
  rewrite (download_file_cached get' zone_url zone_file fs2 zones Ezones).
  by rewrite Escan, Ezs.
Qed.

Lemma load_data_reload_witness :
  load_data (fun _ => NoConnection) SampleNet.scan_parquet SampleNet.read_csv
    SampleNet.disk
  = (SampleNet.disk, Returned (Sample.df, Sample.zones)).
Proof.
  apply (load_data_reload SampleNet.get (fun _ => NoConnection)
           SampleNet.scan_parquet SampleNet.read_csv ∅ SampleNet.disk
           (Sample.df, Sample.zones)).
  by vm_compute.
Defined.

(** X14.  A load whose trip download fails raises that error and does not go
    on to the zone file: nothing is written beyond what the failed fetch
    left. *)
Theorem load_data_trip_failure (get : string → reply)
    (scan_parquet : list Byte.byte → result (list RawTrip))
    (read_csv : list Byte.byte → result (list ZoneRow))
    (fs fs1 : gmap string (list Byte.byte)) (msg : string) :
  download_file get trip_url trip_file fs = (fs1, Raised msg) →
  load_data get scan_parquet read_csv fs = (fs1, Raised msg) ∧
  fs1 !! zone_file = fs !! zone_file.
Proof.
  intros Hdl. unfold load_data. rewrite Hdl. split; [reflexivity |].
  pose proof (download_file_other_paths get trip_url trip_file zone_file fs) as Hframe.
  rewrite Hdl in Hframe. apply Hframe. by vm_compute.
Qed.

Lemma load_data_trip_failure_witness :
  load_data BrokenNet.get SampleNet.scan_parquet SampleNet.read_csv ∅
  = (BrokenNet.partial, Raised "ChunkedEncodingError") ∧
  BrokenNet.partial !! zone_file = (∅ : gmap string (list Byte.byte)) !! zone_file.
Proof.
  apply (load_data_trip_failure BrokenNet.get SampleNet.scan_parquet SampleNet.read_csv
           ∅ BrokenNet.partial "ChunkedEncodingError").
  by vm_compute.
Defined.

(** ** The sidebar's payment options *)

Lemma elem_of_selected_ids sel k :
  k ∈ selected_ids sel ↔ ∃ l, (k, l) ∈ payment_map ∧ l ∈ sel.
Proof.
  unfold selected_ids. rewrite list_elem_of_fmap. split.
  - intros ([k' l] & -> & [Hin Hsel]%elem_of_filter). simpl in *.
    apply bool_decide_eq_true in Hsel. by exists l.
  - intros (l & Hin & Hsel). exists (k, l). split; [reflexivity |].
    apply elem_of_filter. split; [assumption |]. by apply bool_decide_eq_true.
Qed.

Lemma payment_map_entries k l :
  (k, l) ∈ payment_map ↔
  (k = 1 ∧ l = "Credit Card" ∨ k = 2 ∧ l = "Cash" ∨ k = 0 ∧ l = "Void/Unknown" ∨
   k = 4 ∧ l = "Dispute" ∨ k = 3 ∧ l = "No Charge")%string.
Proof.
  unfold payment_map. rewrite !elem_of_cons, elem_of_nil.
  split.
  - intros [[= -> ->] | [[= -> ->] | [[= -> ->] | [[= -> ->] | [[= -> ->] | []]]]]]; tauto.
  - intros [[-> ->] | [[-> ->] | [[-> ->] | [[-> ->] | [-> ->]]]]]; tauto.
Qed.

Lemma dict_get_payment_map k l :
  dict_get payment_map k = Some l ↔ (k, l) ∈ payment_map.
Proof.
  rewrite payment_map_entries. simpl. split.
  - repeat match goal with
           | |- context [?a =? ?b] => destruct (Z.eqb_spec a b) as [-> | ?]
           end; intros [= <-] || discriminate; tauto.
  - intros [[-> ->] | [[-> ->] | [[-> ->] | [[-> ->] | [-> ->]]]]]; reflexivity.
Qed.

Lemma fallback_not_a_label (fmt : option Z → string) (i : option Z) (k : Z) :
  ("ID " +:+ fmt i, k) ∉ (fun kv : Z * string => (kv.2, kv.1)) <$> payment_map.
Proof.
  simpl. rewrite !elem_of_cons, elem_of_nil.
  intros [H | [H | [H | [H | [H | []]]]]]; discriminate.
Qed.

(** X15.  Selecting one known label gives back exactly its code; selecting a
    fallback label ("ID" and a code) selects no code at all. *)
Theorem selected_ids_round_trip (fmt : option Z → string) :
  (∀ k l, dict_get payment_map k = Some l → selected_ids [l] = [k]) ∧
  (∀ i, selected_ids ["ID " +:+ fmt i] = []).
Proof.
  split.
  - intros k l [[-> ->] | [[-> ->] | [[-> ->] | [[-> ->] | [-> ->]]]]]%dict_get_payment_map%payment_map_entries;
      reflexivity.
  - intros i. destruct (selected_ids ["ID " +:+ fmt i]) as [|k ks] eqn:E; [reflexivity |].
    assert (k ∈ selected_ids ["ID " +:+ fmt i]) as Hk by (rewrite E; by left).
    apply elem_of_selected_ids in Hk as (l & Hin & ->%list_elem_of_singleton).
    exfalso. apply (fallback_not_a_label fmt i k).
    apply list_elem_of_fmap. by exists (k, "ID " +:+ fmt i).
Qed.

(** X16.  With every offered option selected (the default), the selected ids
    are exactly the codes 0..4 that occur in the table: a code outside
    0..4 is offered under its fallback label but is never selected. *)
Theorem default_selection_ids (fmt : option Z → string) (df : list Trip) (k : Z) :
  k ∈ selected_ids (payment_options fmt df) ↔
  (0 ≤ k ∧ k ≤ 4) ∧ ∃ r, r ∈ df ∧ payment_type r = Some k.
Proof.
  rewrite elem_of_selected_ids. unfold payment_options, payment_ids.
  setoid_rewrite merge_sort_Permutation.
  setoid_rewrite list_elem_of_fmap. setoid_rewrite elem_of_remove_dups.
  setoid_rewrite list_elem_of_fmap.
  split.
  - intros (l & Hin & i & -> & r & -> & Hr).
    split; [apply payment_map_keys, list_elem_of_fmap; by exists (k, payment_label fmt (payment_type r)) |].
    exists r. split; [assumption |].
    unfold payment_label in Hin.
    destruct (payment_type r) as [k'|] eqn:Hpay.
    + change (Some k' ≫= dict_get payment_map) with (dict_get payment_map k') in Hin.
      destruct (dict_get payment_map k') as [l|] eqn:Hget.
      * apply dict_get_payment_map, payment_map_entries in Hget.
        apply payment_map_entries in Hin.
        f_equal.
        destruct Hget as [[-> ->] | [[-> ->] | [[-> ->] | [[-> ->] | [-> ->]]]]];
          destruct Hin as [[-> ?] | [[-> ?] | [[-> ?] | [[-> ?] | [-> ?]]]]];
          (reflexivity || discriminate).
      * exfalso. apply (fallback_not_a_label fmt (Some k') k).
        apply list_elem_of_fmap. exists (k, "ID " +:+ fmt (Some k')).
        split; [reflexivity | exact Hin].
    + exfalso. apply (fallback_not_a_label fmt None k).
      apply list_elem_of_fmap. exists (k, "ID " +:+ fmt None).
      split; [reflexivity | exact Hin].
  - intros (Hk & r & Hr & Hpay).
    destruct (dict_get_known k Hk) as (l & Hget & Hin).
    exists l. split; [assumption |].
    exists (Some k). split; [| by exists r].
    unfold payment_label.
    change (Some k ≫= dict_get payment_map) with (dict_get payment_map k).
    by rewrite Hget.
Qed.

(** ** Counting: groups partition the rows *)

Lemma sum_list_with_fmap {A B} (f : B → nat) (g : A → B) (l : list A) :
  sum_list_with f (g <$> l) = sum_list_with (f ∘ g) l.
Proof. induction l as [|x l IH]; simpl; [reflexivity | f_equal; exact IH]. Qed.

Lemma sum_list_with_bind {A B} (f : B → nat) (g : A → list B) (l : list A) :
  sum_list_with f (l ≫= g) = sum_list_with (fun x => sum_list_with f (g x)) l.
Proof.
  induction l as [|x l IH]; [reflexivity |].
  rewrite bind_cons, sum_list_with_app. simpl. by rewrite IH.
Qed.

Lemma sum_list_with_ext {A} (f g : A → nat) (l : list A) :
  (∀ x, x ∈ l → f x = g x) → sum_list_with f l = sum_list_with g l.
Proof.
  induction l as [|x l IH]; intros Hfg; simpl; [reflexivity |].
  rewrite (Hfg x) by (by left). rewrite IH; [reflexivity |].
  intros y Hy. apply Hfg. by right.
Qed.

Section partition.
Context {R K : Type} (m : K → R → bool).
Hypothesis m_unique : ∀ r k1 k2, m k1 r = true → m k2 r = true → k1 = k2.

Lemma count_miss (ks : list K) (r : R) (rows : list R) :
  (∀ k, k ∈ ks → m k r = false) →
  sum_list_with (fun k => length (List.filter (m k) (r :: rows))) ks
  = sum_list_with (fun k => length (List.filter (m k) rows)) ks.
Proof.
  intros Hmiss. apply sum_list_with_ext. intros k Hk. simpl.
  by rewrite (Hmiss k Hk).
Qed.

Lemma count_hit (ks : list K) (k0 : K) (r : R) (rows : list R) :
  NoDup ks → k0 ∈ ks → m k0 r = true →
  sum_list_with (fun k => length (List.filter (m k) (r :: rows))) ks
  = S (sum_list_with (fun k => length (List.filter (m k) rows)) ks).
Proof.
  intros Hnd. induction Hnd as [|k ks Hk Hnd IH]; intros Hin Hm.
  - by apply elem_of_nil in Hin.
  - cbn [sum_list_with]. apply elem_of_cons in Hin as [<- | Hin].
    + rewrite count_miss.
      * simpl. by rewrite Hm.
      * intros k Hk'. destruct (m k r) eqn:E; [| reflexivity].
        exfalso. apply Hk. by rewrite (m_unique r k0 k Hm E).
    + rewrite (IH Hin Hm). simpl.
      destruct (m k r) eqn:E; [| lia].
      exfalso. apply Hk. by rewrite (m_unique r k k0 E Hm).
Qed.

Lemma partition_count (ks : list K) (rows : list R) :
  NoDup ks → (∀ r, r ∈ rows → ∃ k, k ∈ ks ∧ m k r = true) →
  sum_list_with (fun k => length (List.filter (m k) rows)) ks = length rows.
Proof.
  intros Hnd. induction rows as [|r rows IH]; intros Hcover.
  - simpl. clear Hnd Hcover. induction ks as [|k ks IHks]; [reflexivity | exact IHks].
  - destruct (Hcover r ltac:(by left)) as (k0 & Hk0 & Hm).
    rewrite (count_hit ks k0 r rows Hnd Hk0 Hm). simpl. f_equal.
    apply IH. intros r' Hr'. apply Hcover. by right.
Qed.
End partition.

Lemma heatmap_values (view : list Trip) :
  grid_values (heatmap_data view)
  = (fun d => (fun h => trip_count view d h) <$> grid_columns (heatmap_data view))
      <$> day_order.
Proof.
  unfold heatmap_data, fillna, reindex.
  set (long := groupby_size day_hour_le day_hour_key view).
  assert (NoDup (grid_index (pivot long))) as Hnd.
  { simpl. rewrite merge_sort_Permutation. apply NoDup_remove_dups. }
  cbn [grid_values grid_columns grid_index].
  rewrite <- list_fmap_compose. apply list_fmap_ext. intros _ d _.
  cbn [compose].
  assert (default (replicate (length (grid_columns (pivot long))) None)
            ((list_to_map (zip (grid_index (pivot long)) (grid_values (pivot long)))
              : gmap string (list (option nat))) !! d)
          = (fun h => (list_to_map long : gmap (string * Z) nat) !! (d, h))
              <$> grid_columns (pivot long)) as ->.
  { apply (reindex_lookup (grid_index (pivot long)) (grid_columns (pivot long))
             (fun d h => (list_to_map long : gmap (string * Z) nat) !! (d, h)) d Hnd).
    intros h Hd. by apply pivot_index_absent. }
  rewrite <- list_fmap_compose. apply list_fmap_ext. intros _ h _.
  apply heatmap_cell.
Qed.

Lemma NoDup_day_order : NoDup day_order.
Proof. apply (bool_decide_unpack (NoDup day_order)). by vm_compute. Qed.

Lemma heatmap_total (view : list Trip) :
  Forall (fun r => ∃ d h, day_hour_key r = Some (d, h) ∧ d ∈ day_order) view →
  grid_total (heatmap_data view) = length view.
Proof.
  intros Hrows. unfold grid_total. rewrite heatmap_values.
  set (cols := grid_columns (heatmap_data view)).
  rewrite sum_list_with_fmap.
  rewrite (sum_list_with_ext _
             (fun d => sum_list_with
                         (fun k => length (List.filter
                                             (fun r => bool_decide (day_hour_key r = Some k))
                                             view))
                         ((fun h => (d, h)) <$> cols))).
  2:{ intros d _. cbn [compose]. generalize cols. intros l.
      induction l as [|h l IH]; [reflexivity |].
      cbn [fmap list_fmap sum_list_with]. f_equal. exact IH. }
  rewrite <- (sum_list_with_bind
                (fun k => length (List.filter
                                    (fun r => bool_decide (day_hour_key r = Some k)) view))
                (fun d => (fun h => (d, h)) <$> cols) day_order).
  apply (partition_count (fun k r => bool_decide (day_hour_key r = Some k))).
  - intros r k1 k2 H1%bool_decide_eq_true H2%bool_decide_eq_true. congruence.
  - apply NoDup_bind.
    + intros d1 d2 [d h] _ _ (h1 & [= -> ->] & _)%list_elem_of_fmap
        (h2 & [= <- _] & _)%list_elem_of_fmap. reflexivity.
    + intros d _. apply NoDup_fmap_2; [by intros h1 h2 [= ->] |].
      unfold cols. simpl. rewrite merge_sort_Permutation. apply NoDup_remove_dups.
    + apply NoDup_day_order.
  - intros r Hr. rewrite Forall_forall in Hrows.
    destruct (Hrows r Hr) as (d & h & Hkey & Hd).
    exists (d, h). split; [| by apply bool_decide_eq_true].
    apply list_elem_of_bind. exists d. split; [| exact Hd].
    apply list_elem_of_fmap. exists h. split; [reflexivity |].
    apply pivot_columns. by exists r, d.
Qed.

Lemma hours_at_most_24 (l : list Z) :
  NoDup l → Forall (fun h => 0 ≤ h ∧ h ≤ 23) l → (length l ≤ 24)%nat.
Proof.
  intros Hnd Hall.
  change 24%nat with (Z.to_nat 24). rewrite <- (length_seqZ 0 24).
  apply submseteq_length, NoDup_submseteq; [exact Hnd |].
  intros h Hh. rewrite Forall_forall in Hall.
  apply elem_of_seqZ. specialize (Hall h Hh). lia.
Qed.

Lemma collect_trips_day_hour (scan : list RawTrip) :
  Forall (fun r => ∃ d h, day_hour_key r = Some (d, h) ∧ d ∈ day_order ∧
                          pickup_hour r = Some h ∧ (0 ≤ h ∧ h ≤ 23) ∧
                          is_Some (fare_amount r))
         (collect_trips scan).
Proof.
  eapply Forall_impl; [exact (collect_trips_invariants scan) |].
  intros r (_ & raw & _ & Hvalid & ->).
  destruct Hvalid as (p & d & loc & dist & fare & Hp & Hd & _ & _ & Hfare & _).
  exists (strftime_A p), (dt_hour p).
  unfold day_hour_key, select_cols, derive. simpl. rewrite Hp, Hfare. simpl.
  split; [reflexivity |]. split; [apply strftime_A_in_day_order |].
  split; [reflexivity |]. split; [apply dt_hour_range | by eexists].
Qed.

Lemma Forall_filter {A} (P : A → Prop) (p : A → bool) (l : list A) :
  Forall P l → Forall P (List.filter p l).
Proof.
  rewrite !Forall_forall. intros H x [Hx _]%elem_of_filter. by apply H.
Qed.

(** X17.  On any view of a table from the pipeline, the cross-tab accounts for
    every trip exactly once: its cells add up to the number of rows of
    the view; and its columns are hours in 0..23, so there are at most
    24 of them. *)
Theorem heatmap_data_accounts_for_every_trip (scan : list RawTrip)
    (d0 d1 h0 h1 : Z) (ids : list Z) :
  ∃ view,
    filtered_polars (collect_trips scan) [d0; d1] (h0, h1) ids = Some view ∧
    grid_total (heatmap_data view) = length view ∧
    Forall (fun h => 0 ≤ h ∧ h ≤ 23) (grid_columns (heatmap_data view)) ∧
    (length (grid_columns (heatmap_data view)) ≤ 24)%nat.
Proof.
  eexists. split; [reflexivity |].
  set (view := List.filter _ (collect_trips scan)).
  assert (Forall (fun r => ∃ d h, day_hour_key r = Some (d, h) ∧ d ∈ day_order ∧
                          pickup_hour r = Some h ∧ (0 ≤ h ∧ h ≤ 23) ∧
                          is_Some (fare_amount r)) view) as Hview
    by apply Forall_filter, collect_trips_day_hour.
  assert (Forall (fun h => 0 ≤ h ∧ h ≤ 23) (grid_columns (heatmap_data view))) as Hcols.
  { apply Forall_forall. intros h (r & d & Hr & Hkey)%pivot_columns.
    rewrite Forall_forall in Hview.
    destruct (Hview r Hr) as (d' & h' & Hkey' & _ & _ & Hh & _).
    rewrite Hkey in Hkey'. by injection Hkey' as -> ->. }
  split.
  { apply heatmap_total. eapply Forall_impl; [exact Hview |].
    intros r (d & h & Hkey & Hd & _). by exists d, h. }
  split; [exact Hcols |].
  apply hours_at_most_24; [| exact Hcols].
  simpl. rewrite merge_sort_Permutation. apply NoDup_remove_dups.
Qed.

(** ** Group sizes and means on pipeline data *)

Lemma groupby_size_total {R K} `{EqDecision K} (le : K → K → Prop)
    `{∀ x y, Decision (le x y)} (key : R → option K) (rows : list R) :
  Forall (fun r => is_Some (key r)) rows →
  sum_list_with snd (groupby_size le key rows) = length rows.
Proof.
  intros Hkeys. unfold groupby_size. rewrite sum_list_with_fmap. unfold compose. cbn [snd].
  apply (partition_count (fun k r => bool_decide (key r = Some k))).
  - intros r k1 k2 H1%bool_decide_eq_true H2%bool_decide_eq_true. congruence.
  - apply NoDup_group_keys.
  - intros r Hr. rewrite Forall_forall in Hkeys.
    destruct (Hkeys r Hr) as [k Hk]. exists k.
    split; [apply elem_of_group_keys; by exists r | by apply bool_decide_eq_true].
Qed.

Lemma series_mean_is_Some (xs : list (option Q)) (x : Q) :
  Some x ∈ xs → is_Some (series_mean xs).
Proof.
  intros Hx. unfold series_mean.
  assert (x ∈ omap id xs) as Hin by (apply list_elem_of_omap; by exists (Some x)).
  destruct (omap id xs); [by apply elem_of_nil in Hin | by eexists].
Qed.

(** X18.  On any view of a table from the pipeline, the mean-by-hour aggregate
    has at most 24 entries, each for an hour in 0..23, and every mean it
    reports is defined: no entry is ever undefined. *)
Theorem avg_fare_hour_on_pipeline (scan : list RawTrip)
    (d0 d1 h0 h1 : Z) (ids : list Z) :
  ∃ view,
    filtered_polars (collect_trips scan) [d0; d1] (h0, h1) ids = Some view ∧
    (length (avg_fare_hour view) ≤ 24)%nat ∧
    Forall (fun hm => (0 ≤ hm.1 ∧ hm.1 ≤ 23) ∧ is_Some hm.2) (avg_fare_hour view).
Proof.
  eexists. split; [reflexivity |].
  set (view := List.filter _ (collect_trips scan)).
  assert (Forall (fun r => ∃ d h, day_hour_key r = Some (d, h) ∧ d ∈ day_order ∧
                          pickup_hour r = Some h ∧ (0 ≤ h ∧ h ≤ 23) ∧
                          is_Some (fare_amount r)) view) as Hview
    by apply Forall_filter, collect_trips_day_hour.
  rewrite Forall_forall in Hview.
  assert (Forall (fun hm => (0 ≤ hm.1 ∧ hm.1 ≤ 23) ∧ is_Some hm.2) (avg_fare_hour view))
    as Hall.
  { apply Forall_forall. unfold avg_fare_hour.
    intros hm (h & -> & (r & Hr & Hh)%elem_of_group_keys)%list_elem_of_fmap. simpl.
    destruct (Hview r Hr) as (_ & h' & _ & _ & Hh' & Hrange & [fare Hfare]).
    rewrite Hh in Hh'. injection Hh' as <-.
    split; [exact Hrange |].
    apply (series_mean_is_Some _ fare), list_elem_of_fmap.
    exists r. split; [by rewrite Hfare |]. by apply elem_of_group_rows. }
  split; [| exact Hall].
  rewrite <- (length_fmap fst). apply hours_at_most_24.
  - unfold avg_fare_hour. rewrite fmap_fst_keyed. apply NoDup_group_keys.
  - apply Forall_fmap. eapply Forall_impl; [exact Hall |]. by intros hm [Hr _].
Qed.

(** ** Proportions *)

Lemma Qsum_proportions {K} (l : list (K * nat)) (N : Q) :
  (Qsum ((fun vc => inject_Z (Z.of_nat vc.2) / N) <$> l)
   == inject_Z (Z.of_nat (sum_list_with snd l)) / N)%Q.
Proof.
  induction l as [|vc l IH]; cbn [fmap list_fmap Qsum foldr sum_list_with].
  - unfold Qdiv. by rewrite Qmult_0_l.
  - change (foldr Qplus 0%Q ((fun vc => inject_Z (Z.of_nat vc.2) / N)%Q <$> l))
      with (Qsum ((fun vc => inject_Z (Z.of_nat vc.2) / N)%Q <$> l)).
    rewrite IH, Nat2Z.inj_add, inject_Z_plus. unfold Qdiv.
    by rewrite Qmult_plus_distr_l.
Qed.

Lemma value_counts_total sort_values (col : list (option Z)) :
  sorts_descending sort_values →
  (Qsum (snd <$> value_counts_normalized sort_values col)
   == inject_Z (Z.of_nat (length (omap id col)))
      / inject_Z (Z.of_nat (length (omap id col))))%Q.
Proof.
  intros Hsv. unfold value_counts_normalized.
  set (vals := omap id col).
  rewrite <- list_fmap_compose.
  change (snd ∘ _) with
    (fun vc : Z * nat => (inject_Z (Z.of_nat vc.2) / inject_Z (Z.of_nat (length vals)))%Q).
  rewrite Qsum_proportions.
  rewrite (sort_values_perm _ Hsv), sum_list_with_fmap. unfold compose. cbn [snd].
  rewrite (partition_count Z.eqb).
  - reflexivity.
  - intros x v1 v2 ->%Z.eqb_eq ->%Z.eqb_eq. reflexivity.
  - apply NoDup_remove_dups.
  - intros x Hx. exists x. split; [by apply elem_of_remove_dups | apply Z.eqb_refl].
Qed.

(** X19.  The proportions of the payment distribution add up to 1 whenever the
    view has at least one row with a payment type. *)
Theorem payment_breakdown_sums_to_one
    (sort_values : ∀ K, list (K * nat) → list (K * nat)) (view : list Trip) (r : Trip) :
  sorts_descending sort_values →
  r ∈ view → is_Some (payment_type r) →
  (Qsum (pb_proportion <$> payment_breakdown sort_values view) == 1)%Q.
Proof.
  intros Hsv Hr [p Hp]. unfold payment_breakdown, map_labels.
  rewrite <- list_fmap_compose.
  change (pb_proportion ∘ _) with (@snd Z Q).
  rewrite (value_counts_total sort_values _ Hsv).
  assert (p ∈ omap id (payment_type <$> view)) as Hin.
  { apply list_elem_of_omap. exists (Some p). split; [| reflexivity].
    apply list_elem_of_fmap. by exists r. }
  destruct (omap id (payment_type <$> view)) as [|v vs];
    [by apply elem_of_nil in Hin |].
  apply Qmult_inv_r. unfold Qeq. simpl. lia.
Qed.

Lemma payment_breakdown_sums_to_one_witness :
  (Qsum (pb_proportion <$> payment_breakdown stable_sort_desc Sample.df) == 1)%Q.
Proof.
  apply (payment_breakdown_sums_to_one stable_sort_desc Sample.df
           (mkTrip (Some Sample.monday_5am) (Some 12%Q) (Some (12 + 1)%Q) (Some 1)
                   (Some (5 # 2)%Q) (Some 15) (Some 5) (Some "Monday"%string) (Some 1))).
  - exact stable_sort_desc_ok.
  - unfold Sample.df. by left.
  - by eexists.
Defined.

(** ** The join with the zone table *)

Lemma at_most_one_zone (zones : list ZoneRow) (c : option Z) :
  NoDup (LocationID <$> zones) →
  (length (List.filter (fun z => bool_decide (c = Some (LocationID z))) zones) ≤ 1)%nat.
Proof.
  induction zones as [|z zones IH]; simpl; [lia |].
  intros [Hz Hnd]%NoDup_cons. specialize (IH Hnd).
  destruct (bool_decide (c = Some (LocationID z))) eqn:E; [| exact IH].
  apply bool_decide_eq_true in E. simpl.
  destruct (List.filter _ zones) as [|z' rest] eqn:Ef; [simpl; lia |].
  exfalso. apply Hz.
  assert (z' ∈ List.filter (fun z => bool_decide (c = Some (LocationID z))) zones)
    as Hin by (rewrite Ef; by left).
  apply elem_of_filter in Hin as [Hin Hc%bool_decide_eq_true].
  rewrite E in Hc. injection Hc as ->.
  apply list_elem_of_fmap. by exists z'.
Qed.

Lemma merge_zones_length (view : list Trip) (zones : list ZoneRow) :
  NoDup (LocationID <$> zones) →
  (length (merge_zones view zones) ≤ length view)%nat.
Proof.
  intros Hnd. unfold merge_zones.
  induction view as [|r view IH]; [reflexivity |].
  rewrite bind_cons, List.length_app, length_fmap. simpl.
  pose proof (at_most_one_zone zones (PULocationID r) Hnd). lia.
Qed.

Lemma sum_list_with_take {A} (f : A → nat) (n : nat) (l : list A) :
  (sum_list_with f (take n l) ≤ sum_list_with f l)%nat.
Proof.
  rewrite <- (take_drop n l) at 2. rewrite sum_list_with_app. lia.
Qed.

(** X20.  When no location id occurs twice in the zone table, the join keeps at
    most one row per trip, and the trip counts shown for the top zones
    never add up to more than the number of trips in the view. *)
Theorem top_zones_counts_bounded (sort_values : ∀ K, list (K * nat) → list (K * nat))
    (view : list Trip) (zones : list ZoneRow) :
  sorts_descending sort_values →
  NoDup (LocationID <$> zones) →
  (length (merge_zones view zones) ≤ length view)%nat ∧
  (sum_list_with snd (top_zones sort_values view zones) ≤ length view)%nat.
Proof.
  intros Hsv Hnd. pose proof (merge_zones_length view zones Hnd) as Hlen.
  split; [exact Hlen |].
  unfold top_zones.
  etransitivity; [apply sum_list_with_take |].
  rewrite (sort_values_perm _ Hsv).
  rewrite (groupby_size_total string_le zone_key); [exact Hlen |].
  apply Forall_forall. intros p _. by eexists.
Qed.

Lemma top_zones_counts_bounded_witness :
  (length (merge_zones Sample.df Sample.zones) ≤ length Sample.df)%nat ∧
  (sum_list_with snd (top_zones stable_sort_desc Sample.df Sample.zones)
   ≤ length Sample.df)%nat.
Proof.
  apply (top_zones_counts_bounded stable_sort_desc Sample.df Sample.zones).
  - exact stable_sort_desc_ok.
  - apply (bool_decide_unpack (NoDup (LocationID <$> Sample.zones))). by vm_compute.
Defined.

(** X21.  A trip whose pickup location is missing from the zone table, or is
    null, is dropped by the join and counted for no zone. *)
Theorem merge_zones_drops_unknown_location (r : Trip) (zones : list ZoneRow) :
  (∀ z, z ∈ zones → PULocationID r ≠ Some (LocationID z)) →
  merge_zones [r] zones = [] ∧
  ∀ view, merge_zones (r :: view) zones = merge_zones view zones.
Proof.
  intros Hmiss.
  assert (List.filter (fun z => bool_decide (PULocationID r = Some (LocationID z))) zones
          = []) as Hnone.
  { apply filter_none, Forall_forall. intros z Hz.
    apply bool_decide_eq_false. by apply Hmiss. }
  unfold merge_zones. split.
  - rewrite bind_cons, Hnone. reflexivity.
  - intros view. rewrite bind_cons, Hnone. reflexivity.
Qed.

Lemma merge_zones_drops_unknown_location_witness :
  merge_zones [mkTrip (Some 0) (Some 5%Q) None (Some 264) (Some 1%Q) (Some 3) (Some 0)
                      (Some "Thursday"%string) (Some 1)] Sample.zones = [].
Proof.
  apply (merge_zones_drops_unknown_location _ Sample.zones).
  intros z Hz. unfold Sample.zones in Hz.
  apply elem_of_cons in Hz as [-> | Hz]; [discriminate |].
  apply elem_of_cons in Hz as [-> | Hz]; [discriminate |].
  by apply elem_of_nil in Hz.
Defined.

(** ** Key metrics *)

(** X22.  On any view of a table from the pipeline, the key-metrics block is
    skipped exactly when the view is empty; when it is shown, the trip
    total is the number of rows and the three averages are all defined. *)
Theorem key_metrics_on_pipeline (scan : list RawTrip)
    (d0 d1 h0 h1 : Z) (ids : list Z) :
  ∃ view,
    filtered_polars (collect_trips scan) [d0; d1] (h0, h1) ids = Some view ∧
    match key_metrics view with
    | None => view = []
    | Some m =>
        view ≠ [] ∧ total_trips m = length view ∧
        is_Some (average_fare m) ∧ is_Some (avg_distance m) ∧ is_Some (avg_duration m)
    end.
Proof.
  eexists. split; [reflexivity |].
  set (view := List.filter _ (collect_trips scan)).
  assert (Forall trip_invariant view) as Hview.
  { apply Forall_filter. eapply Forall_impl; [exact (collect_trips_invariants scan) |].
    by intros r [Hr _]. }
  destruct view as [|r rest]; [reflexivity |].
  apply Forall_cons in Hview as [Hr _].
  destruct Hr as (p & loc & dist & fare & dur & h & _ & _ & Hdist & Hfare & Hdur & _).
  cbn [key_metrics total_trips average_fare avg_distance avg_duration].
  split; [discriminate |]. split; [reflexivity |].
  split; [| split].
  - apply (series_mean_is_Some _ fare). rewrite fmap_cons, Hfare. by left.
  - apply (series_mean_is_Some _ dist). rewrite fmap_cons, Hdist. by left.
  - apply (series_mean_is_Some _ (inject_Z dur)). rewrite fmap_cons, Hdur. by left.
Qed.
